(** * PLUSFIND: route energy model and charging-stop planner

    A shallow embedding of [src/services/dynamicRouteCalculationService.ts]
    and of the fallback path of [src/services/realChargingStationService.ts].

    JavaScript numbers are idealised as real numbers: [+ - * /] are the
    exact operations of [R], comparisons are decided by [Rlt_dec] and
    friends, and [Math.round], [Math.max], [Math.min], [Math.atan2] are
    given below.  Rounding error of IEEE doubles, [NaN] and the infinities
    are outside the model, so statements about a quotient assume a
    positive divisor, and a property of a value that the program rounds
    or compares after computing it is stated with the rounding tolerance
    (or with a margin to the threshold), not as an equation that a last
    binary digit could break.  Awaited provider calls are read from an
    explicit [Providers] record; a thrown exception is the [Throw]
    constructor of [Outcome]. *)

From Stdlib Require Import Reals Lra Lia List String Ascii ZArith Bool.
From Stdlib Require Import DecimalString Sorted.
Import ListNotations.
Open Scope string_scope.
Open Scope list_scope.
Open Scope R_scope.

(** ** JavaScript primitives *)

(** [Math.round]: nearest integer, halves towards plus infinity. *)
Definition Math_round (x : R) : R := IZR (Zfloor (x + / 2)).

Definition Math_max (a b : R) : R := Rmax a b.
Definition Math_min (a b : R) : R := Rmin a b.
Definition Math_PI : R := PI.
Definition Math_sin (x : R) : R := sin x.
Definition Math_cos (x : R) : R := cos x.
Definition Math_sqrt (x : R) : R := sqrt x.

(** [Math.atan2(y, x)]: the angle of the point (x, y), in (-PI, PI]. *)
Definition Math_atan2 (y x : R) : R :=
  if Rlt_dec 0 x then atan (y / x)
  else if Rlt_dec x 0 then
    if Rle_dec 0 y then atan (y / x) + PI else atan (y / x) - PI
  else if Rlt_dec 0 y then PI / 2
  else if Rlt_dec y 0 then - (PI / 2)
  else 0.

(** [s.toLowerCase()] on ASCII strings: the letters A-Z are mapped, every
    other character, non-ASCII letters included, is left as it is. *)
Definition lowerAscii (c : ascii) : ascii :=
  let n := nat_of_ascii c in
  if andb (Nat.leb 65 n) (Nat.leb n 90) then ascii_of_nat (n + 32) else c.

Fixpoint toLowerCase (s : string) : string :=
  match s with
  | EmptyString => EmptyString
  | String c r => String (lowerAscii c) (toLowerCase r)
  end.

(** [s.includes(needle)]. *)
Fixpoint includes (s needle : string) : bool :=
  if prefix needle s then true
  else match s with
       | EmptyString => false
       | String _ r => includes r needle
       end.

(** [xs.map((x, index) => f(x, index))], indices counted from [i]. *)
Fixpoint mapi_from {A B : Type} (f : A -> nat -> B) (i : nat) (xs : list A)
  : list B :=
  match xs with
  | [] => []
  | x :: r => f x i :: mapi_from f (S i) r
  end.

(** Sum of a numeric projection: [xs.reduce((sum, x) => sum + f(x), 0)]. *)
Definition sumOf {A : Type} (f : A -> R) (xs : list A) : R :=
  fold_left (fun sum x => sum + f x) xs 0.

(** Result of a call that may throw. *)
Inductive Outcome (A : Type) : Type :=
| Ok (a : A)
| Throw (message : string).
Arguments Ok {A} a.
Arguments Throw {A} message.

Definition mapOutcome {A B : Type} (f : A -> B) (o : Outcome A) : Outcome B :=
  match o with
  | Ok a => Ok (f a)
  | Throw m => Throw m
  end.

(** ** Data model ([@/types/ev], as the two services use it) *)

Inductive ConnectorType := CCS2 | CHAdeMO | TeslaConnector | Type2 | GBT.

Inductive Network := DEWA | ADDC | SEWA | Tesla | Other.

Definition ConnectorType_eqb (a b : ConnectorType) : bool :=
  match a, b with
  | CCS2, CCS2 | CHAdeMO, CHAdeMO | TeslaConnector, TeslaConnector
  | Type2, Type2 | GBT, GBT => true
  | _, _ => false
  end.

Record ChargingStation := {
  id : string;
  name : string;
  station_lat : R;
  station_lng : R;
  address : string;
  network : Network;
  connectorTypes : list ConnectorType;
  maxPower : R;
  isAvailable : bool;
  numberOfPorts : R;
  costPerKwh : R;
  amenities : list string
}.

Record ChargingPort := { port_type : ConnectorType }.

Record EVModel := {
  batteryCapacity : R;
  efficiency : R;
  mass : R;
  dragCoefficient : R;
  frontalArea : R;
  maxChargingSpeed : R;
  chargingPorts : list ChargingPort
}.

Record WeatherData := {
  temperature : R;
  windSpeed : R;
  condition : string
}.

Record RoutePoint := { lat : R; lng : R }.

Record ElevationData := { elevation : R; distance_from_start : R }.

Record RouteSegment := {
  startLat : R;
  startLng : R;
  endLat : R;
  endLng : R;
  distance : R;
  duration : R;
  elevationGain : R;
  energyRequired : R
}.

Record ChargingStop := {
  station : ChargingStation;
  arrivalSOC : R;
  departureSOC : R;
  chargingTime : R;
  energyAdded : R
}.

Record Place := { place_lat : R; place_lng : R; place_address : string }.

Record RoutePlan := {
  plan_id : string;
  origin : Place;
  destination : Place;
  vehicle : EVModel;
  initialSOC : R;
  segments : list RouteSegment;
  chargingStops : list ChargingStop;
  totalDistance : R;
  totalDuration : R;
  totalEnergyUsed : R;
  finalSOC : R;
  weatherImpact : R
}.

Record PublicChargingStationsRequest := {
  req_lat : R;
  req_lng : R;
  radiusKm : R;
  req_connectorTypes : list ConnectorType
}.

(** ** realChargingStationService.ts *)

Module RealChargingStationService.

(** Haversine great-circle distance, lines 356-365. *)
Definition calculateDistance (lat1 lon1 lat2 lon2 : R) : R :=
  let R_ := 6371 in
  let dLat := (lat2 - lat1) * Math_PI / 180 in
  let dLon := (lon2 - lon1) * Math_PI / 180 in
  let a := Math_sin (dLat / 2) * Math_sin (dLat / 2) +
           Math_cos (lat1 * Math_PI / 180) * Math_cos (lat2 * Math_PI / 180) *
           Math_sin (dLon / 2) * Math_sin (dLon / 2) in
  let c := 2 * Math_atan2 (Math_sqrt a) (Math_sqrt (1 - a)) in
  R_ * c.

(** The curated table of [getFallbackStations], lines 209-342. *)
Definition fallbackStations : list ChargingStation :=
  [ {| id := "dewa-mall-emirates";
       name := "Mall of the Emirates - DEWA Green Charger";
       station_lat := 25.1172; station_lng := 55.2001;
       address := "Mall of the Emirates, Sheikh Zayed Road, Dubai, UAE";
       network := DEWA; connectorTypes := [CCS2; CHAdeMO];
       maxPower := 150; isAvailable := true; numberOfPorts := 4;
       costPerKwh := 0.29;
       amenities := ["Shopping Mall"; "Restaurants"; "Cinema"; "Free WiFi"] |};
    {| id := "dewa-dubai-mall";
       name := "Dubai Mall - DEWA Station";
       station_lat := 25.1972; station_lng := 55.2744;
       address := "Dubai Mall, Downtown Dubai, UAE";
       network := DEWA; connectorTypes := [CCS2; Type2];
       maxPower := 120; isAvailable := true; numberOfPorts := 8;
       costPerKwh := 0.29;
       amenities := ["Shopping Mall"; "Burj Khalifa view"; "Metro station"] |};
    {| id := "tesla-jbr";
       name := "Tesla Supercharger - JBR";
       station_lat := 25.0657; station_lng := 55.1398;
       address := "Jumeirah Beach Residence, Dubai, UAE";
       network := Tesla; connectorTypes := [TeslaConnector; CCS2];
       maxPower := 250; isAvailable := true; numberOfPorts := 12;
       costPerKwh := 0.35;
       amenities := ["Beach access"; "Restaurants"; "Parking"] |};
    {| id := "addc-yas-mall";
       name := "Yas Mall - ADDC Fast Charger";
       station_lat := 24.4888; station_lng := 54.6094;
       address := "Yas Island, Abu Dhabi, UAE";
       network := ADDC; connectorTypes := [CCS2; CHAdeMO; Type2];
       maxPower := 180; isAvailable := true; numberOfPorts := 6;
       costPerKwh := 0.27;
       amenities := ["Shopping Mall"; "Theme parks nearby"; "F1 Circuit"] |};
    {| id := "addc-corniche";
       name := "Corniche Beach - ADDC Station";
       station_lat := 24.4764; station_lng := 54.3705;
       address := "Corniche Road, Abu Dhabi, UAE";
       network := ADDC; connectorTypes := [CCS2; Type2];
       maxPower := 100; isAvailable := true; numberOfPorts := 4;
       costPerKwh := 0.27;
       amenities := ["Beach access"; "Restaurants"; "Parking"] |};
    {| id := "sewa-city-centre";
       name := "City Centre Sharjah - SEWA";
       station_lat := 25.3373; station_lng := 55.4209;
       address := "City Centre Sharjah, Sharjah, UAE";
       network := SEWA; connectorTypes := [CCS2; Type2];
       maxPower := 120; isAvailable := true; numberOfPorts := 4;
       costPerKwh := 0.28;
       amenities := ["Shopping Mall"; "Restaurants"; "Cinema"] |};
    {| id := "sec-khobar";
       name := "Al Khobar Charging Hub";
       station_lat := 26.2172; station_lng := 50.1971;
       address := "Prince Faisal Bin Fahd Road, Al Khobar, Saudi Arabia";
       network := Other; connectorTypes := [CCS2; CHAdeMO];
       maxPower := 150; isAvailable := true; numberOfPorts := 6;
       costPerKwh := 0.25;
       amenities := ["Shopping Center"; "Restaurants"; "Parking"] |};
    {| id := "kahramaa-doha";
       name := "Doha Festival City - KAHRAMAA";
       station_lat := 25.3548; station_lng := 51.4326;
       address := "Doha Festival City, Doha, Qatar";
       network := Other; connectorTypes := [CCS2; Type2];
       maxPower := 120; isAvailable := true; numberOfPorts := 4;
       costPerKwh := 0.27;
       amenities := ["Shopping Mall"; "Restaurants"; "Free WiFi"] |};
    {| id := "oman-muscat-mall";
       name := "Muscat Grand Mall Charging Station";
       station_lat := 23.6086; station_lng := 58.4291;
       address := "Muscat Grand Mall, Muscat, Oman";
       network := Other; connectorTypes := [CCS2; Type2];
       maxPower := 100; isAvailable := true; numberOfPorts := 4;
       costPerKwh := 0.31;
       amenities := ["Shopping Mall"; "Restaurants"; "Parking"] |} ].

(** The radius test of the fallback filter, lines 345-351. *)
Definition withinRadius (request : PublicChargingStationsRequest)
  (s : ChargingStation) : bool :=
  let distance := calculateDistance (req_lat request) (req_lng request)
                                    (station_lat s) (station_lng s) in
  if Rle_dec distance (radiusKm request) then true else false.

Definition getFallbackStations (request : PublicChargingStationsRequest)
  : list ChargingStation :=
  let filteredStations := filter (withinRadius request) fallbackStations in
  filteredStations.

(** [getNearbyStations], lines 48-82.  [live] is what the OpenChargeMap
    request yields after [transformStations]: [None] when the fetch throws
    or the response is not ok. *)
Definition getNearbyStations (live : option (list ChargingStation))
  (request : PublicChargingStationsRequest) : list ChargingStation :=
  match live with
  | Some stations => stations
  | None => getFallbackStations request
  end.

(** *** The live path: OpenChargeMap records and their transformation *)

(** [x || y] on numbers: [0] is the falsy number. *)
Definition numberOr (x y : R) : R := if Req_dec_T x 0 then y else x.

(** An entry of [Connections].  Fields are as the interface
    [OpenChargeMapStation] declares them; [ConnectionTypeTitle] is
    [ConnectionType.Title]. *)
Record OcmConnection := {
  ConnectionTypeID : N;
  ConnectionTypeTitle : string;
  PowerKW : R;
  Voltage : R;
  Amps : R
}.

(** [AddressInfo]; [CountryTitle] and [CountryISOCode] are [Country.Title]
    and [Country.ISOCode]. *)
Record OcmAddressInfo := {
  Title : string;
  AddressLine1 : string;
  Town : string;
  StateOrProvince : string;
  CountryTitle : string;
  CountryISOCode : string;
  Latitude : R;
  Longitude : R
}.

(** A station of the OpenChargeMap answer.  [AddressInfo] and
    [Connections], whose presence [transformStations] tests, and the
    members the interface marks optional are options: [OperatorTitle] is
    [OperatorInfo?.Title], [IsOperational] is [StatusType?.IsOperational],
    [UsageTitle] is [UsageType?.Title]. *)
Record OpenChargeMapStation := {
  ID : N;
  UUID : string;
  AddressInfo : option OcmAddressInfo;
  Connections : option (list OcmConnection);
  OperatorTitle : option string;
  IsOperational : option bool;
  UsageTitle : option string;
  NumberOfPoints : R
}.

(** Lines 109-123. *)
Definition estimatePowerFromConnection (connection : OcmConnection) : R :=
  if andb (if Req_dec_T (Voltage connection) 0 then false else true)
          (if Req_dec_T (Amps connection) 0 then false else true)
  then (Voltage connection * Amps connection) / 1000
  else
    let connectionType := toLowerCase (ConnectionTypeTitle connection) in
    if orb (includes connectionType "ccs") (includes connectionType "combo")
    then 150
    else if includes connectionType "chademo" then 100
    else if includes connectionType "tesla" then 250
    else if includes connectionType "type 2" then 22
    else 50.

(** [s] as [Boolean(s)] reads it: the empty string is falsy. *)
Definition nonEmpty (s : string) : bool :=
  match s with
  | EmptyString => false
  | String _ _ => true
  end.

(** Lines 125-134. *)
Definition formatAddress (addressInfo : OcmAddressInfo) : string :=
  let parts := filter nonEmpty
                 [ AddressLine1 addressInfo;
                   Town addressInfo;
                   StateOrProvince addressInfo;
                   CountryTitle addressInfo ] in
  String.concat ", " parts.

(** Lines 136-146. *)
Definition mapOperatorToNetwork (operatorTitle : option string) : Network :=
  match operatorTitle with
  | None => Other
  | Some title =>
      if nonEmpty title then
        let operator := toLowerCase title in
        if orb (includes operator "dewa") (includes operator "dubai")
        then DEWA
        else if orb (includes operator "addc") (includes operator "abu dhabi")
        then ADDC
        else if orb (includes operator "sewa") (includes operator "sharjah")
        then SEWA
        else if includes operator "tesla" then Tesla
        else Other
      else Other
  end.

(** [types.add(t)] on a [Set] kept in insertion order. *)
Definition addType (t : ConnectorType) (types : list ConnectorType)
  : list ConnectorType :=
  if existsb (ConnectorType_eqb t) types then types else types ++ [t].

(** The body of the [forEach] of lines 151-158. *)
Definition addConnectionTypes (types : list ConnectorType)
  (conn : OcmConnection) : list ConnectorType :=
  let type := toLowerCase (ConnectionTypeTitle conn) in
  let types :=
    if orb (includes type "ccs") (includes type "combo")
    then addType CCS2 types else types in
  let types :=
    if includes type "chademo" then addType CHAdeMO types else types in
  let types :=
    if includes type "tesla" then addType TeslaConnector types else types in
  let types :=
    if orb (includes type "type 2") (includes type "mennekes")
    then addType Type2 types else types in
  let types :=
    if orb (includes type "gbt") (includes type "gb/t")
    then addType GBT types else types in
  types.

(** Lines 148-161. *)
Definition mapConnectionTypes (connections : list OcmConnection)
  : list ConnectorType :=
  fold_left addConnectionTypes connections [].

(** The table [basePrices] of lines 165-173, read at a country code.  A
    code that names a member inherited from [Object.prototype] is outside
    the model; no such name has two characters. *)
Definition basePrices (countryCode : string) : option R :=
  if String.eqb countryCode "AE" then Some 0.29
  else if String.eqb countryCode "SA" then Some 0.25
  else if String.eqb countryCode "QA" then Some 0.27
  else if String.eqb countryCode "OM" then Some 0.31
  else if String.eqb countryCode "BH" then Some 0.28
  else if String.eqb countryCode "KW" then Some 0.26
  else if String.eqb countryCode "IR" then Some 0.15
  else None.

(** Lines 163-181. *)
Definition estimateCostPerKwh (countryCode : string) (powerKW : R) : R :=
  let basePrice :=
    match basePrices countryCode with
    | Some price => numberOr price 0.30
    | None => 0.30
    end in
  let fastChargingMultiplier := if Rgt_dec powerKW 100 then 1.2 else 1.0 in
  Math_round (basePrice * fastChargingMultiplier * 100) / 100.

(** Lines 183-205. *)
Definition inferAmenities (title town : string) : list string :=
  let amenities := [] in
  let titleLower := toLowerCase title in
  let townLower := toLowerCase town in
  let amenities :=
    if orb (includes titleLower "mall") (includes titleLower "shopping")
    then amenities ++ ["Shopping Mall"; "Restaurants"; "Free WiFi"]
    else amenities in
  let amenities :=
    if orb (includes titleLower "hotel") (includes titleLower "resort")
    then amenities ++ ["Hotel"; "Restaurants"; "Parking"]
    else amenities in
  let amenities :=
    if includes titleLower "airport"
    then amenities ++ ["Airport"; "Restaurants"; "Free WiFi"]
    else amenities in
  let amenities :=
    if orb (includes titleLower "metro") (includes titleLower "station")
    then amenities ++ ["Public Transport"; "Parking"]
    else amenities in
  let amenities :=
    if orb (includes townLower "dubai") (includes townLower "abu dhabi")
    then amenities ++ ["City Center"; "Restaurants"]
    else amenities in
  match amenities with
  | [] => ["Parking"; "Restrooms"]
  | _ :: _ => amenities
  end.

(** The first filter and the map of lines 85-105, fused: the map reads
    [AddressInfo] and [Connections[0]], which the filter has tested. *)
Definition transformStation (station : OpenChargeMapStation)
  : option ChargingStation :=
  match AddressInfo station, Connections station with
  | Some addressInfo, Some ((connection :: _) as connections) =>
      let powerKW :=
        numberOr (PowerKW connection)
                 (estimatePowerFromConnection connection) in
      Some {| id := String.append "ocm-"
                      (NilZero.string_of_uint (N.to_uint (ID station)));
              name := if nonEmpty (Title addressInfo)
                      then Title addressInfo else "Charging Station";
              station_lat := Latitude addressInfo;
              station_lng := Longitude addressInfo;
              address := formatAddress addressInfo;
              network := mapOperatorToNetwork (OperatorTitle station);
              connectorTypes := mapConnectionTypes connections;
              maxPower := Math_round powerKW;
              isAvailable := match IsOperational station with
                             | Some false => false
                             | _ => true
                             end;
              numberOfPorts := numberOr (NumberOfPoints station) 1;
              costPerKwh :=
                estimateCostPerKwh (CountryISOCode addressInfo) powerKW;
              amenities :=
                inferAmenities (Title addressInfo) (Town addressInfo) |}
  | _, _ => None
  end.

(** [xs.filter(...).map(...)] with the two fused into a partial map. *)
Fixpoint filterMap {A B : Type} (f : A -> option B) (xs : list A) : list B :=
  match xs with
  | [] => []
  | x :: r =>
      match f x with
      | Some y => y :: filterMap f r
      | None => filterMap f r
      end
  end.

(** Lines 84-107. *)
Definition transformStations (data : list OpenChargeMapStation)
  : list ChargingStation :=
  filter (fun station => if Rgt_dec (maxPower station) 0 then true else false)
         (filterMap transformStation data).

(** Lines 48-82 on the raw answer: [None] when the fetch throws or the
    response is not ok, else the parsed JSON. *)
Definition getNearbyStationsFrom (response : option (list OpenChargeMapStation))
  (request : PublicChargingStationsRequest) : list ChargingStation :=
  getNearbyStations (option_map transformStations response) request.

End RealChargingStationService.

(** ** dynamicRouteCalculationService.ts *)

(** What the awaited calls of one planning request return.  [now] is the
    value of [Date.now()]; [elevationApi] answers the elevation lookup
    ([None]: network error or non-ok status; an entry [None]: a result
    without an elevation); [weatherApi] is
    [freeWeatherService.getCurrentWeather]; [stationApi i] is the
    transformed OpenChargeMap answer to the directory call made while
    segment [i] is processed ([None]: the live source is unreachable). *)
Record Providers := {
  now : N;
  elevationApi : list RoutePoint -> option (list (option R));
  weatherApi : R -> R -> Outcome WeatherData;
  stationApi : nat -> PublicChargingStationsRequest
               -> option (list ChargingStation)
}.

Module DynamicRouteCalculationService.

(** Lines 362-371. *)
Definition calculateDistance (lat1 lon1 lat2 lon2 : R) : R :=
  let R_ := 6371 in
  let dLat := (lat2 - lat1) * Math_PI / 180 in
  let dLon := (lon2 - lon1) * Math_PI / 180 in
  let a := Math_sin (dLat / 2) * Math_sin (dLat / 2) +
           Math_cos (lat1 * Math_PI / 180) * Math_cos (lat2 * Math_PI / 180) *
           Math_sin (dLon / 2) * Math_sin (dLon / 2) in
  let c := 2 * Math_atan2 (Math_sqrt a) (Math_sqrt (1 - a)) in
  R_ * c.

(** Lines 116-128: the loop [for (i = 0; i <= numPoints; i++)], unrolled
    over the remaining iteration count. *)
Fixpoint interpolateLoop (start end_ : RoutePoint) (numPoints : nat)
  (i remaining : nat) : list RoutePoint :=
  match remaining with
  | O => []
  | S k =>
      let ratio := INR i / INR numPoints in
      {| lat := lat start + (lat end_ - lat start) * ratio;
         lng := lng start + (lng end_ - lng start) * ratio |}
      :: interpolateLoop start end_ numPoints (S i) k
  end.

Definition interpolateRoutePoints (start end_ : RoutePoint) (numPoints : nat)
  : list RoutePoint :=
  interpolateLoop start end_ numPoints 0 (S numPoints).

(** [result.elevation || 0]. *)
Definition elevationOrZero (e : option R) : R :=
  match e with
  | Some x => x
  | None => 0
  end.

(** Lines 82-114. *)
Definition getElevationProfile (P : Providers) (origin destination : RoutePoint)
  : list ElevationData :=
  let points := interpolateRoutePoints origin destination 10 in
  match elevationApi P points with
  | Some results =>
      mapi_from
        (fun result index =>
           {| elevation := elevationOrZero result;
              distance_from_start :=
                INR index *
                (calculateDistance (lat origin) (lng origin)
                                   (lat destination) (lng destination)
                 / INR (List.length points)) |})
        0 results
  | None =>
      let distance := calculateDistance (lat origin) (lng origin)
                                        (lat destination) (lng destination) in
      [ {| elevation := 50; distance_from_start := 0 |};
        {| elevation := 50; distance_from_start := distance |} ]
  end.

(** Lines 164-175: the accumulation loop, then [Math.round]. *)
Fixpoint elevationGainLoop (totalGain : R) (elevationProfile : list ElevationData)
  : R :=
  match elevationProfile with
  | prev :: ((cur :: _) as rest) =>
      let gain := elevation cur - elevation prev in
      elevationGainLoop (if Rgt_dec gain 0 then totalGain + gain else totalGain)
                        rest
  | _ => totalGain
  end.

Definition calculateElevationGain (elevationProfile : list ElevationData) : R :=
  Math_round (elevationGainLoop 0 elevationProfile).

(** Lines 200-217. *)
Definition getWeatherMultiplier (weather : WeatherData) (vehicle : EVModel) : R :=
  let multiplier := 1.0 in
  let multiplier :=
    if Rlt_dec (temperature weather) 0 then multiplier + 0.3
    else if Rlt_dec (temperature weather) 10 then multiplier + 0.15
    else if Rgt_dec (temperature weather) 35 then multiplier + 0.1
    else multiplier in
  let windImpact := Math_min 0.2 (windSpeed weather / 100) in
  multiplier + windImpact.

(** Lines 219-231. *)
Definition calculateAirResistanceImpact (distance : R) (vehicle : EVModel)
  (weather : WeatherData) : R :=
  let averageSpeed := 80 in
  let airDensity := 1.225 in
  let dragForce := 0.5 * airDensity * dragCoefficient vehicle
                   * frontalArea vehicle * (averageSpeed / 3.6) ^ 2 in
  let powerRequired := dragForce * (averageSpeed / 3.6) / 1000 in
  let timeHours := distance / averageSpeed in
  powerRequired * timeHours * 0.1.

(** Lines 177-198. *)
Definition calculateEnergyConsumption (distance elevationGain : R)
  (vehicle : EVModel) (weather : WeatherData) : R :=
  let baseConsumption := (distance * efficiency vehicle) / 1000 in
  let elevationImpact := (elevationGain / 100) * (mass vehicle / 1000) * 0.1 in
  let weatherMultiplier := getWeatherMultiplier weather vehicle in
  let airResistanceImpact :=
    calculateAirResistanceImpact distance vehicle weather in
  let totalConsumption :=
    (baseConsumption + elevationImpact + airResistanceImpact)
    * weatherMultiplier in
  Math_max 0 totalConsumption.

(** Lines 233-253. *)
Definition estimateAverageSpeed (distance : R) (weather : WeatherData) : R :=
  let baseSpeed := 80 in
  let baseSpeed :=
    if Rlt_dec distance 50 then 60
    else if Rlt_dec distance 200 then 70
    else baseSpeed in
  let baseSpeed :=
    if orb (includes (toLowerCase (condition weather)) "rain")
           (includes (toLowerCase (condition weather)) "storm")
    then baseSpeed * 0.8 else baseSpeed in
  let baseSpeed :=
    if Rgt_dec (windSpeed weather) 50 then baseSpeed * 0.9 else baseSpeed in
  Math_max 30 baseSpeed.

(** Lines 130-162. *)
Definition calculateRouteSegments (origin destination : RoutePoint)
  (vehicle : EVModel) (elevationProfile : list ElevationData)
  (weather : WeatherData) : list RouteSegment :=
  let totalDistance := calculateDistance (lat origin) (lng origin)
                                         (lat destination) (lng destination) in
  let elevationGain := calculateElevationGain elevationProfile in
  let energyRequired :=
    calculateEnergyConsumption totalDistance elevationGain vehicle weather in
  let averageSpeed := estimateAverageSpeed totalDistance weather in
  let duration := (totalDistance / averageSpeed) * 60 in
  [ {| startLat := lat origin;
       startLng := lng origin;
       endLat := lat destination;
       endLng := lng destination;
       distance := totalDistance;
       duration := Math_round duration;
       elevationGain := elevationGain;
       energyRequired := Math_round (energyRequired * 10) / 10 |} ].

(** Lines 330-348. *)
Definition scoreChargingStation (station : ChargingStation) : R :=
  let score := 0 in
  let score := score + maxPower station / 10 in
  let score :=
    match network station with
    | Tesla => score + 20
    | DEWA => score + 15
    | ADDC => score + 10
    | _ => score
    end in
  let score := score + numberOfPorts station in
  let score := score + INR (List.length (amenities station)) in
  score.

(** The filter predicate of lines 313-318. *)
Definition isCompatible (vehicle : EVModel) (station : ChargingStation) : bool :=
  let hasCompatibleConnector :=
    existsb (fun type =>
               existsb (fun port => ConnectorType_eqb (port_type port) type)
                       (chargingPorts vehicle))
            (connectorTypes station) in
  andb (isAvailable station) hasCompatibleConnector.

(** Lines 312-328; [reduce] without a seed starts from the first element. *)
Definition findBestChargingStation (stations : list ChargingStation)
  (vehicle : EVModel) : option ChargingStation :=
  let compatibleStations := filter (isCompatible vehicle) stations in
  match compatibleStations with
  | [] => None
  | first :: rest =>
      Some (fold_left
              (fun best current =>
                 let currentScore := scoreChargingStation current in
                 let bestScore := scoreChargingStation best in
                 if Rgt_dec currentScore bestScore then current else best)
              rest first)
  end.

(** The variables the loop of [findOptimalChargingStops] updates. *)
Record PlannerState := {
  stopsSoFar : list ChargingStop;
  currentSOC : R;
  currentPosition : RoutePoint
}.

Definition socNeededFor (vehicle : EVModel) (segment : RouteSegment) : R :=
  let energyNeeded := energyRequired segment in
  (energyNeeded / batteryCapacity vehicle) * 100.

(** The charging session of lines 283-298, for the SOC on arrival. *)
Definition chargingSession (vehicle : EVModel) (bestStation : ChargingStation)
  (currentSOC : R) : ChargingStop :=
  let targetSOC := 80 in
  let energyToAdd := batteryCapacity vehicle * (targetSOC - currentSOC) / 100 in
  let chargingPower :=
    Math_min (maxPower bestStation) (maxChargingSpeed vehicle) in
  let chargingTime := (energyToAdd / chargingPower) * 60 in
  {| station := bestStation;
     arrivalSOC := Math_round currentSOC;
     departureSOC := targetSOC;
     chargingTime := Math_round chargingTime;
     energyAdded := Math_round (energyToAdd * 10) / 10 |}.

(** The request of lines 272-277. *)
Definition stationRequest (vehicle : EVModel) (position : RoutePoint)
  : PublicChargingStationsRequest :=
  {| req_lat := lat position;
     req_lng := lng position;
     radiusKm := 50;
     req_connectorTypes := map port_type (chargingPorts vehicle) |}.

(** What the directory answers to the lookup made at segment [index]. *)
Definition nearbyStationsAt (P : Providers) (vehicle : EVModel) (index : nat)
  (position : RoutePoint) : list ChargingStation :=
  RealChargingStationService.getNearbyStations
    (stationApi P index (stationRequest vehicle position))
    (stationRequest vehicle position).

(** The station the lookup of lines 272-280 selects, if any. *)
Definition lookupBestStation (P : Providers) (vehicle : EVModel) (index : nat)
  (position : RoutePoint) : option ChargingStation :=
  let nearbyStations := nearbyStationsAt P vehicle index position in
  findBestChargingStation nearbyStations vehicle.

(** The safety-buffer test of line 270. *)
Definition needsCharge (vehicle : EVModel) (st : PlannerState)
  (segment : RouteSegment) : Prop :=
  currentSOC st - socNeededFor vehicle segment < 20.

(** One iteration of the loop, lines 264-307, for the segment at [index]. *)
Definition planSegment (P : Providers) (vehicle : EVModel) (index : nat)
  (st : PlannerState) (segment : RouteSegment) : PlannerState :=
  let socNeeded := socNeededFor vehicle segment in
  let charged :=
    if Rlt_dec (currentSOC st - socNeeded) 20 then
      match lookupBestStation P vehicle index (currentPosition st) with
      | Some bestStation =>
          {| stopsSoFar :=
               stopsSoFar st
               ++ [chargingSession vehicle bestStation (currentSOC st)];
             currentSOC := 80;
             currentPosition := currentPosition st |}
      | None => st
      end
    else st in
  {| stopsSoFar := stopsSoFar charged;
     currentSOC := currentSOC charged - socNeeded;
     currentPosition := {| lat := endLat segment; lng := endLng segment |} |}.

(** The loop over the segments from [index] on. *)
Fixpoint planLoop (P : Providers) (vehicle : EVModel) (index : nat)
  (st : PlannerState) (segments : list RouteSegment) : PlannerState :=
  match segments with
  | [] => st
  | segment :: rest =>
      planLoop P vehicle (S index) (planSegment P vehicle index st segment) rest
  end.

(** The loop state after each iteration, in order: the trajectory of
    [currentSOC] and [currentPosition] at the segment boundaries. *)
Fixpoint planTrace (P : Providers) (vehicle : EVModel) (index : nat)
  (st : PlannerState) (segments : list RouteSegment) : list PlannerState :=
  match segments with
  | [] => []
  | segment :: rest =>
      let st' := planSegment P vehicle index st segment in
      st' :: planTrace P vehicle (S index) st' rest
  end.

Definition initialState (segments : list RouteSegment) (initialSOC : R)
  : Outcome PlannerState :=
  match segments with
  | [] => Throw "TypeError: Cannot read properties of undefined"
  | first :: _ =>
      Ok {| stopsSoFar := [];
            currentSOC := initialSOC;
            currentPosition := {| lat := startLat first; lng := startLng first |} |}
  end.

(** Lines 255-310.  Reading [segments[0].startLat] throws on an empty list. *)
Definition findOptimalChargingStops (P : Providers)
  (segments : list RouteSegment) (vehicle : EVModel) (initialSOC : R)
  : Outcome (list ChargingStop) :=
  mapOutcome (fun st0 => stopsSoFar (planLoop P vehicle 0 st0 segments))
             (initialState segments initialSOC).

(** The SOC trajectory of a run: [currentSOC] after each segment. *)
Definition socTrajectory (P : Providers) (segments : list RouteSegment)
  (vehicle : EVModel) (initialSOC : R) : Outcome (list R) :=
  mapOutcome (fun st0 => map currentSOC (planTrace P vehicle 0 st0 segments))
             (initialState segments initialSOC).

(** Lines 350-360. *)
Definition calculateWeatherImpact (weather : WeatherData) : R :=
  let impact := 0 in
  let impact :=
    if Rlt_dec (temperature weather) 0 then impact - 30
    else if Rlt_dec (temperature weather) 10 then impact - 15
    else if Rgt_dec (temperature weather) 35 then impact - 10
    else impact in
  let impact :=
    if Rgt_dec (windSpeed weather) 30 then impact - 5 else impact in
  Math_max (-40) (Math_min 10 impact).

(** [`route-${Date.now()}`]. *)
Definition routeId (now : N) : string :=
  String.append "route-" (NilZero.string_of_uint (N.to_uint now)).

(** The value of [finalSOC] before [Math.round], line 60. *)
Definition finalSOCBeforeRounding (initialSOC : R) (vehicle : EVModel)
  (segments : list RouteSegment) (chargingStops : list ChargingStop) : R :=
  let totalEnergyUsed := sumOf energyRequired segments in
  let energyAdded := sumOf energyAdded chargingStops in
  Math_max 0 (initialSOC
              - (totalEnergyUsed / batteryCapacity vehicle * 100)
              + (energyAdded / batteryCapacity vehicle * 100)).

(** Lines 31-34: [weatherData || await getCurrentWeather(...)]. *)
Definition resolveWeather (P : Providers) (origin destination : RoutePoint)
  (weatherData : option WeatherData) : Outcome WeatherData :=
  match weatherData with
  | Some w => Ok w
  | None => weatherApi P ((lat origin + lat destination) / 2)
                         ((lng origin + lng destination) / 2)
  end.

(** Lines 19-80.  Any exception inside the [try] is rethrown as
    ['Failed to calculate optimal route']. *)
Definition calculateOptimalRoute (P : Providers) (origin destination : RoutePoint)
  (vehicle : EVModel) (initialSOC : R) (weatherData : option WeatherData)
  : Outcome RoutePlan :=
  let failed := Throw "Failed to calculate optimal route" in
  let elevationProfile := getElevationProfile P origin destination in
  match resolveWeather P origin destination weatherData with
  | Throw _ => failed
  | Ok weather =>
      let segments :=
        calculateRouteSegments origin destination vehicle elevationProfile
                               weather in
      match findOptimalChargingStops P segments vehicle initialSOC with
      | Throw _ => failed
      | Ok chargingStops =>
          let totalDistance := sumOf distance segments in
          let totalDrivingTime := sumOf duration segments in
          let totalChargingTime := sumOf chargingTime chargingStops in
          let totalEnergyUsed := sumOf energyRequired segments in
          let finalSOC :=
            finalSOCBeforeRounding initialSOC vehicle segments chargingStops in
          Ok {| plan_id := routeId (now P);
                origin := {| place_lat := lat origin; place_lng := lng origin;
                             place_address := "Origin" |};
                destination := {| place_lat := lat destination;
                                  place_lng := lng destination;
                                  place_address := "Destination" |};
                vehicle := vehicle;
                initialSOC := initialSOC;
                segments := segments;
                chargingStops := chargingStops;
                totalDistance := Math_round totalDistance;
                totalDuration := Math_round (totalDrivingTime + totalChargingTime);
                totalEnergyUsed := Math_round (totalEnergyUsed * 10) / 10;
                finalSOC := Math_round finalSOC;
                weatherImpact := calculateWeatherImpact weather |}
      end
  end.

End DynamicRouteCalculationService.

(** ** Specification vocabulary *)

Import RealChargingStationService DynamicRouteCalculationService.

(** Along the run from [st] at segment [index]: wherever the safety-buffer
    test asks for a stop, the directory's answer holds a station that is
    available and shares a connector with the vehicle. *)
Fixpoint stationFoundWhenRequired (P : Providers) (vehicle : EVModel)
  (index : nat) (st : PlannerState) (segments : list RouteSegment) : Prop :=
  match segments with
  | [] => True
  | segment :: rest =>
      (needsCharge vehicle st segment ->
       exists s, In s (nearbyStationsAt P vehicle index (currentPosition st))
                 /\ isCompatible vehicle s = true)
      /\ stationFoundWhenRequired P vehicle (S index)
           (planSegment P vehicle index st segment) rest
  end.

Definition stationsAlwaysFound (P : Providers) (segments : list RouteSegment)
  (vehicle : EVModel) (initialSOC : R) : Prop :=
  match initialState segments initialSOC with
  | Ok st0 => stationFoundWhenRequired P vehicle 0 st0 segments
  | Throw _ => True
  end.

(** The sum of the positive consecutive deltas of an elevation sequence. *)
Fixpoint sumPositiveDeltas (elevations : list R) : R :=
  match elevations with
  | a :: ((b :: _) as rest) => Math_max 0 (b - a) + sumPositiveDeltas rest
  | _ => 0
  end.

(** The point at fraction [i / n] of the straight line from [start]. *)
Definition pointAt (start end_ : RoutePoint) (i n : R) : RoutePoint :=
  {| lat := lat start + (lat end_ - lat start) * (i / n);
     lng := lng start + (lng end_ - lng start) * (i / n) |}.

(** [Math.min(Math.max(x, lo), hi)]. *)
Definition clamp (x lo hi : R) : R := Math_min (Math_max x lo) hi.

(** Replace the identifier of a plan. *)
Definition withPlanId (i : string) (p : RoutePlan) : RoutePlan :=
  {| plan_id := i;
     origin := origin p;
     destination := destination p;
     vehicle := vehicle p;
     initialSOC := initialSOC p;
     segments := segments p;
     chargingStops := chargingStops p;
     totalDistance := totalDistance p;
     totalDuration := totalDuration p;
     totalEnergyUsed := totalEnergyUsed p;
     finalSOC := finalSOC p;
     weatherImpact := weatherImpact p |}.

(** The same provider answers, read at another time. *)
Definition atTime (t : N) (P : Providers) : Providers :=
  {| now := t;
     elevationApi := elevationApi P;
     weatherApi := weatherApi P;
     stationApi := stationApi P |}.

(** ** Example data *)

Definition exampleStation : ChargingStation :=
  {| id := "ocm-1001";
     name := "Charging Station";
     station_lat := 25.2; station_lng := 55.3;
     address := "Dubai, United Arab Emirates";
     network := DEWA; connectorTypes := [CCS2];
     maxPower := 50; isAvailable := true; numberOfPorts := 2;
     costPerKwh := 0.29;
     amenities := ["Parking"; "Restrooms"] |}.

Definition exampleVehicle (capacity : R) : EVModel :=
  {| batteryCapacity := capacity; efficiency := 150; mass := 1800;
     dragCoefficient := 0.23; frontalArea := 2.2; maxChargingSpeed := 150;
     chargingPorts := [ {| port_type := CCS2 |} ] |}.

Definition mildWeather : WeatherData :=
  {| temperature := 25; windSpeed := 10; condition := "Clear" |}.

(** Providers at time [t]: the elevation lookup fails, the weather is mild,
    and the live directory answers every lookup with [stations]. *)
Definition exampleProviders (t : N) (stations : option (list ChargingStation))
  : Providers :=
  {| now := t;
     elevationApi := fun _ => None;
     weatherApi := fun _ _ => Ok mildWeather;
     stationApi := fun _ _ => stations |}.

(** One leg from Dubai to Abu Dhabi that needs [energy] kWh. *)
Definition exampleLeg (energy : R) : RouteSegment :=
  {| startLat := 25.2048; startLng := 55.2708;
     endLat := 24.4539; endLng := 54.3773;
     distance := 140; duration := 120; elevationGain := 0;
     energyRequired := energy |}.

(** ** components/RoutePlanner.tsx *)

Module RoutePlannerComponent.





End RoutePlannerComponent.

(** ** components/RouteResults.tsx *)

Module RouteResultsComponent.

(** [Math.floor]. *)
Definition Math_floor (x : R) : R := IZR (Zfloor x).

(** [a % b] on numbers: the remainder has the sign of [a]. *)
Definition remainder (a b : R) : R :=
  let q := a / b in
  a - b * IZR (if Rle_dec 0 q then Zfloor q else Zceil q).

(** Lines 280-286 of the file. *)
Definition drivingTime (routePlan : RoutePlan) : R :=
  sumOf duration (segments routePlan).

Definition chargingTimeTotal (routePlan : RoutePlan) : R :=
  sumOf chargingTime (chargingStops routePlan).

Definition lowFinalSOC (routePlan : RoutePlan) : bool :=
  if Rlt_dec (finalSOC routePlan) 20 then true else false.

(** The two numbers of [`${Math.floor(t / 60)}h ${t % 60}m`]. *)
Definition shownHours (minutes : R) : R := Math_floor (minutes / 60).

Definition shownMinutes (minutes : R) : R := remainder minutes 60.

End RouteResultsComponent.

(** ** Vocabulary of the further properties *)

(** A station is a best choice among [stations] for [vehicle]: eligible,
    of maximal score among the eligible ones, and before every other
    eligible station of the same score. *)
Definition firstBestOf (vehicle : EVModel) (stations : list ChargingStation)
  (best : ChargingStation) : Prop :=
  exists before after,
    stations = before ++ best :: after
    /\ isCompatible vehicle best = true
    /\ (forall s, In s before -> isCompatible vehicle s = true ->
                   scoreChargingStation s < scoreChargingStation best)
    /\ (forall s, In s after -> isCompatible vehicle s = true ->
                   scoreChargingStation s <= scoreChargingStation best).

(** The directory answers of [P] are outputs of [transformStations] (or
    the live source is down and the fallback table is used). *)
Definition answersAreTransformed (P : Providers) : Prop :=
  forall index request,
    stationApi P index request = None
    \/ exists data,
        stationApi P index request
        = Some (RealChargingStationService.transformStations data).

(** Whether a connection title makes [mapConnectionTypes] add the type. *)
Definition titleOffers (t : ConnectorType) (title : string) : bool :=
  let type := toLowerCase title in
  match t with
  | CCS2 => orb (includes type "ccs") (includes type "combo")
  | CHAdeMO => includes type "chademo"
  | TeslaConnector => includes type "tesla"
  | Type2 => orb (includes type "type 2") (includes type "mennekes")
  | GBT => orb (includes type "gbt") (includes type "gb/t")
  end.

(** Running SOC after driving segments with the given needs, no stop. *)
Fixpoint drainedSOC (soc : R) (needs : list R) : list R :=
  match needs with
  | [] => []
  | need :: rest => (soc - need) :: drainedSOC (soc - need) rest
  end.

(** ** Example data for the live directory *)

Definition exampleConnection : OcmConnection :=
  {| ConnectionTypeID := 33;
     ConnectionTypeTitle := "CCS (Type 2)";
     PowerKW := 50; Voltage := 400; Amps := 125 |}.

Definition exampleRawStation : OpenChargeMapStation :=
  {| ID := 1001;
     UUID := "C0FFEE";
     AddressInfo :=
       Some {| Title := "Dubai Mall"; AddressLine1 := "Financial Center Road";
               Town := "Dubai"; StateOrProvince := "";
               CountryTitle := "United Arab Emirates"; CountryISOCode := "AE";
               Latitude := 25.1972; Longitude := 55.2744 |};
     Connections := Some [exampleConnection];
     OperatorTitle := Some "DEWA";
     IsOperational := None;
     UsageTitle := None;
     NumberOfPoints := 0 |}.

(** Providers whose live directory answers every lookup with [data]. *)
Definition liveProviders (data : list OpenChargeMapStation) : Providers :=
  {| now := 0;
     elevationApi := fun _ => None;
     weatherApi := fun _ _ => Ok mildWeather;
     stationApi := fun _ _ => Some (transformStations data) |}.

(** * Properties *)

(** ** The string and identifier primitives on examples *)

Example includes_rain : includes (toLowerCase "Heavy Rain") "rain" = true.
Proof. reflexivity. Qed.

Example includes_storm :
  includes (toLowerCase "Thunderstorm") "storm" = true.
Proof. reflexivity. Qed.

Example includes_clear : includes (toLowerCase "Clear") "rain" = false.
Proof. reflexivity. Qed.

Example routeId_example : routeId 1700000000000 = "route-1700000000000".
Proof. reflexivity. Qed.

(** ** Rounding *)

Lemma Math_round_bounds (x : R) :
  x - / 2 < Math_round x <= x + / 2.
Proof.
  unfold Math_round.
  destruct (Zfloor_bound (x + / 2)) as [Hlo Hhi].
  split; lra.
Qed.

Lemma Math_round_eq (z : Z) (x : R) :
  IZR z - / 2 <= x < IZR z + / 2 -> Math_round x = IZR z.
Proof.
  intros [Hlo Hhi]. unfold Math_round. f_equal.
  apply Zfloor_eq. split; lra.
Qed.

Lemma Math_round_IZR (z : Z) : Math_round (IZR z) = IZR z.
Proof. apply Math_round_eq. lra. Qed.

Example Math_round_half_up : Math_round 2.5 = 3 /\ Math_round (-2.5) = -2.
Proof.
  split; [apply (Math_round_eq 3) | apply (Math_round_eq (-2))]; lra.
Qed.

Lemma Math_round_le (x y : R) : x <= y -> Math_round x <= Math_round y.
Proof.
  intros Hxy. unfold Math_round. apply IZR_le, Zfloor_le. lra.
Qed.

Lemma Math_round_nonneg (x : R) : 0 <= x -> 0 <= Math_round x.
Proof.
  intros Hx. rewrite <- (Math_round_IZR 0). now apply Math_round_le.
Qed.

Lemma Math_round_close (x : R) : Rabs (Math_round x - x) <= / 2.
Proof.
  destruct (Math_round_bounds x) as [Hlo Hhi].
  apply Rabs_le. split; lra.
Qed.


(** ** Energy model *)

Lemma calculateAirResistanceImpact_linear (d : R) (vehicle : EVModel)
  (weather : WeatherData) :
  calculateAirResistanceImpact d vehicle weather
  = (dragCoefficient vehicle * frontalArea vehicle) * (49 / 5832) * d.
Proof. unfold calculateAirResistanceImpact. cbv zeta. lra. Qed.

Lemma calculateEnergyConsumption_nonneg d g vehicle weather :
  0 <= calculateEnergyConsumption d g vehicle weather.
Proof. unfold calculateEnergyConsumption, Math_max. apply Rmax_l. Qed.

(** C9.  For a vehicle with non-negative efficiency, mass, drag coefficient
    and frontal area and any weather sample, the segment energy
    [calculateEnergyConsumption] is non-decreasing in the distance and in
    the elevation gain, over non-negative distances and gains. *)
Theorem calculateEnergyConsumption_monotone
  (vehicle : EVModel) (weather : WeatherData) (d1 d2 g1 g2 : R) :
  0 <= efficiency vehicle ->
  0 <= mass vehicle ->
  0 <= dragCoefficient vehicle ->
  0 <= frontalArea vehicle ->
  0 <= d1 <= d2 ->
  0 <= g1 <= g2 ->
  calculateEnergyConsumption d1 g1 vehicle weather
  <= calculateEnergyConsumption d2 g2 vehicle weather.
Proof.
  intros Heff Hmass Hcd Harea [Hd1 Hd] [Hg1 Hg].
  unfold calculateEnergyConsumption.
  rewrite !calculateAirResistanceImpact_linear.
  set (m := getWeatherMultiplier weather vehicle).
  assert (Hca : 0 <= dragCoefficient vehicle * frontalArea vehicle)
    by now apply Rmult_le_pos.
  set (ca := dragCoefficient vehicle * frontalArea vehicle) in *.
  set (s1 := d1 * efficiency vehicle / 1000
             + g1 / 100 * (mass vehicle / 1000) * 0.1
             + ca * (49 / 5832) * d1).
  set (s2 := d2 * efficiency vehicle / 1000
             + g2 / 100 * (mass vehicle / 1000) * 0.1
             + ca * (49 / 5832) * d2).
  assert (Hs1 : 0 <= s1).
  { unfold s1.
    assert (0 <= d1 * efficiency vehicle) by now apply Rmult_le_pos.
    assert (0 <= g1 * mass vehicle) by now apply Rmult_le_pos.
    assert (0 <= ca * d1) by now apply Rmult_le_pos.
    lra. }
  assert (Hs12 : s1 <= s2).
  { unfold s1, s2.
    assert (d1 * efficiency vehicle <= d2 * efficiency vehicle)
      by now apply Rmult_le_compat_r.
    assert (g1 * mass vehicle <= g2 * mass vehicle)
      by now apply Rmult_le_compat_r.
    assert (ca * d1 <= ca * d2) by now apply Rmult_le_compat_l.
    lra. }
  unfold Math_max.
  destruct (Rle_lt_dec 0 m) as [Hm | Hm].
  - apply Rle_max_compat_l. now apply Rmult_le_compat_r.
  - assert (s1 * m <= 0) by nra.
    assert (s2 * m <= 0) by nra.
    rewrite !Rmax_left by assumption. lra.
Qed.

(** A mid-size car in mild weather: 140 km against 100 km, 300 m of climb
    against none. *)
Lemma calculateEnergyConsumption_monotone_witness :
  calculateEnergyConsumption 100 0
    {| batteryCapacity := 75; efficiency := 150; mass := 1800;
       dragCoefficient := 0.23; frontalArea := 2.2; maxChargingSpeed := 150;
       chargingPorts := [ {| port_type := CCS2 |} ] |}
    {| temperature := 25; windSpeed := 10; condition := "Clear" |}
  <= calculateEnergyConsumption 140 300
    {| batteryCapacity := 75; efficiency := 150; mass := 1800;
       dragCoefficient := 0.23; frontalArea := 2.2; maxChargingSpeed := 150;
       chargingPorts := [ {| port_type := CCS2 |} ] |}
    {| temperature := 25; windSpeed := 10; condition := "Clear" |}.
Proof.
  apply calculateEnergyConsumption_monotone; simpl; lra.
Defined.

(** ** Station selection *)

Lemma findBestChargingStation_None (stations : list ChargingStation)
  (vehicle : EVModel) :
  findBestChargingStation stations vehicle = None <->
  (forall s, In s stations -> isCompatible vehicle s = false).
Proof.
  unfold findBestChargingStation. split.
  - intros Hnone s Hin.
    destruct (isCompatible vehicle s) eqn:Hs; [|reflexivity].
    assert (Hf : In s (filter (isCompatible vehicle) stations))
      by (apply filter_In; auto).
    destruct (filter (isCompatible vehicle) stations); [inversion Hf|discriminate].
  - intros Hall.
    destruct (filter (isCompatible vehicle) stations) as [|s r] eqn:Hf;
      [reflexivity|].
    assert (Hin : In s (filter (isCompatible vehicle) stations))
      by (rewrite Hf; now left).
    apply filter_In in Hin. destruct Hin as [Hin Hs].
    rewrite (Hall s Hin) in Hs. discriminate.
Qed.

Lemma fold_best_In (rest : list ChargingStation) (first : ChargingStation) :
  In (fold_left
        (fun best current =>
           if Rgt_dec (scoreChargingStation current) (scoreChargingStation best)
           then current else best) rest first)
     (first :: rest).
Proof.
  revert first. induction rest as [|c rest IH]; intros first; simpl.
  - now left.
  - destruct (Rgt_dec (scoreChargingStation c) (scoreChargingStation first)).
    + destruct (IH c) as [H | H]; auto.
    + destruct (IH first) as [H | H]; auto.
Qed.

Lemma findBestChargingStation_Some (stations : list ChargingStation)
  (vehicle : EVModel) (best : ChargingStation) :
  findBestChargingStation stations vehicle = Some best ->
  In best stations /\ isCompatible vehicle best = true.
Proof.
  unfold findBestChargingStation.
  destruct (filter (isCompatible vehicle) stations) as [|s r] eqn:Hf;
    [discriminate|].
  intros Hbest. injection Hbest as <-.
  apply filter_In. rewrite Hf. apply fold_best_In.
Qed.

(** ** The planner loop *)

Create HintDb planner.

Section PlannerLoop.

Variable P : Providers.
Variable vehicle : EVModel.

Lemma lookupBestStation_None index position :
  lookupBestStation P vehicle index position = None <->
  (forall s, In s (nearbyStationsAt P vehicle index position) ->
             isCompatible vehicle s = false).
Proof. apply findBestChargingStation_None. Qed.

Lemma lookupBestStation_found index position s :
  In s (nearbyStationsAt P vehicle index position) ->
  isCompatible vehicle s = true ->
  exists best, lookupBestStation P vehicle index position = Some best.
Proof.
  intros Hin Hs.
  destruct (lookupBestStation P vehicle index position) as [best|] eqn:Hbest.
  - now exists best.
  - rewrite lookupBestStation_None in Hbest.
    rewrite (Hbest s Hin) in Hs. discriminate.
Qed.

Lemma planSegment_charge index st segment best :
  needsCharge vehicle st segment ->
  lookupBestStation P vehicle index (currentPosition st) = Some best ->
  planSegment P vehicle index st segment
  = {| stopsSoFar := stopsSoFar st
                     ++ [chargingSession vehicle best (currentSOC st)];
       currentSOC := 80 - socNeededFor vehicle segment;
       currentPosition := {| lat := endLat segment; lng := endLng segment |} |}.
Proof.
  unfold needsCharge, planSegment. intros Hneed Hbest.
  destruct (Rlt_dec _ 20) as [_ | Hn]; [|contradiction].
  rewrite Hbest. reflexivity.
Qed.

Lemma planSegment_no_station index st segment :
  needsCharge vehicle st segment ->
  lookupBestStation P vehicle index (currentPosition st) = None ->
  planSegment P vehicle index st segment
  = {| stopsSoFar := stopsSoFar st;
       currentSOC := currentSOC st - socNeededFor vehicle segment;
       currentPosition := {| lat := endLat segment; lng := endLng segment |} |}.
Proof.
  unfold needsCharge, planSegment. intros Hneed Hbest.
  destruct (Rlt_dec _ 20) as [_ | Hn]; [|contradiction].
  rewrite Hbest. reflexivity.
Qed.

Lemma planSegment_enough index st segment :
  ~ needsCharge vehicle st segment ->
  planSegment P vehicle index st segment
  = {| stopsSoFar := stopsSoFar st;
       currentSOC := currentSOC st - socNeededFor vehicle segment;
       currentPosition := {| lat := endLat segment; lng := endLng segment |} |}.
Proof.
  unfold needsCharge, planSegment. intros Hneed.
  destruct (Rlt_dec _ 20) as [Hn | _]; [contradiction|]. reflexivity.
Qed.

#[local] Hint Resolve planSegment_charge planSegment_no_station
  planSegment_enough : planner.

(** The three ways an iteration can go. *)
Lemma planSegment_cases index st segment :
  (exists best,
      needsCharge vehicle st segment /\
      lookupBestStation P vehicle index (currentPosition st) = Some best /\
      planSegment P vehicle index st segment
      = {| stopsSoFar := stopsSoFar st
                         ++ [chargingSession vehicle best (currentSOC st)];
           currentSOC := 80 - socNeededFor vehicle segment;
           currentPosition :=
             {| lat := endLat segment; lng := endLng segment |} |})
  \/ ((~ needsCharge vehicle st segment \/
       lookupBestStation P vehicle index (currentPosition st) = None) /\
      planSegment P vehicle index st segment
      = {| stopsSoFar := stopsSoFar st;
           currentSOC := currentSOC st - socNeededFor vehicle segment;
           currentPosition :=
             {| lat := endLat segment; lng := endLng segment |} |}).
Proof.
  destruct (Rlt_dec (currentSOC st - socNeededFor vehicle segment) 20)
    as [Hneed | Hneed].
  - destruct (lookupBestStation P vehicle index (currentPosition st))
      as [best|] eqn:Hbest.
    + left. exists best. repeat split; auto with planner.
    + right. split; auto with planner.
  - right. split; auto with planner.
Qed.

Lemma planLoop_stops_length segments :
  forall index st,
    (List.length (stopsSoFar (planLoop P vehicle index st segments))
     <= List.length (stopsSoFar st) + List.length segments)%nat.
Proof.
  induction segments as [|segment rest IH]; intros index st; simpl.
  - lia.
  - specialize (IH (S index) (planSegment P vehicle index st segment)).
    destruct (planSegment_cases index st segment)
      as [(best & _ & _ & Heq) | (_ & Heq)];
      rewrite Heq in IH |- *; simpl in IH; rewrite ?length_app in IH;
      simpl in IH; lia.
Qed.

Lemma planLoop_app pre post :
  forall index st,
    planLoop P vehicle index st (pre ++ post)
    = planLoop P vehicle (index + List.length pre)
               (planLoop P vehicle index st pre) post.
Proof.
  induction pre as [|segment pre IH]; intros index st; simpl.
  - now rewrite Nat.add_0_r.
  - rewrite IH. now rewrite Nat.add_succ_r.
Qed.

Lemma planTrace_app pre post :
  forall index st,
    planTrace P vehicle index st (pre ++ post)
    = planTrace P vehicle index st pre
      ++ planTrace P vehicle (index + List.length pre)
                   (planLoop P vehicle index st pre) post.
Proof.
  induction pre as [|segment pre IH]; intros index st; simpl.
  - now rewrite Nat.add_0_r.
  - rewrite IH. now rewrite Nat.add_succ_r.
Qed.

Lemma planTrace_length segments :
  forall index st,
    List.length (planTrace P vehicle index st segments) = List.length segments.
Proof.
  induction segments as [|segment rest IH]; intros index st; simpl; auto.
Qed.

Lemma planTrace_nonneg segments :
  forall index st,
    stationFoundWhenRequired P vehicle index st segments ->
    Forall (fun segment => socNeededFor vehicle segment <= 80) segments ->
    Forall (fun st' => 0 <= currentSOC st')
           (planTrace P vehicle index st segments).
Proof.
  induction segments as [|segment rest IH]; intros index st Hfound Hneed;
    simpl; [constructor|].
  destruct Hfound as [Hhere Hrest].
  inversion Hneed as [|? ? Hseg Hothers]; subst.
  constructor; [|now apply IH].
  destruct (planSegment_cases index st segment)
    as [(best & _ & _ & Heq) | ([Hok | Hnone] & Heq)]; rewrite Heq; simpl.
  - lra.
  - unfold needsCharge in Hok. lra.
  - destruct (Rlt_dec (currentSOC st - socNeededFor vehicle segment) 20)
      as [Hlow | Hhigh]; [|lra].
    destruct (Hhere Hlow) as (s & Hin & Hs).
    destruct (lookupBestStation_found index _ s Hin Hs) as [b Hb].
    congruence.
Qed.

(** An iteration appends at most one stop and keeps the stops it found. *)
Lemma planSegment_stops index st segment :
  exists extra,
    stopsSoFar (planSegment P vehicle index st segment) = stopsSoFar st ++ extra
    /\ (List.length extra <= 1)%nat.
Proof.
  destruct (planSegment_cases index st segment)
    as [(best & _ & _ & Heq) | (_ & Heq)]; rewrite Heq; cbn [stopsSoFar].
  - eexists. split; [reflexivity | simpl; lia].
  - exists []. split; [now rewrite app_nil_r | simpl; lia].
Qed.

(** The loop only appends: its result is the list it started from,
    followed by at most one stop per segment. *)
Lemma planLoop_stops_extend segments :
  forall index st,
    exists later,
      stopsSoFar (planLoop P vehicle index st segments) = stopsSoFar st ++ later
      /\ (List.length later <= List.length segments)%nat.
Proof.
  induction segments as [|segment rest IH]; intros index st;
    cbn [planLoop List.length].
  - exists []. split; [now rewrite app_nil_r | simpl; lia].
  - destruct (IH (S index) (planSegment P vehicle index st segment))
      as (later & Heq & Hlen).
    destruct (planSegment_stops index st segment) as (extra & Hextra & Hone).
    exists (extra ++ later). split.
    + rewrite Heq, Hextra. now rewrite app_assoc.
    + rewrite length_app. lia.
Qed.


Lemma findOptimalChargingStops_single segment soc :
  findOptimalChargingStops P [segment] vehicle soc
  = Ok (stopsSoFar
          (planSegment P vehicle 0
             {| stopsSoFar := [];
                currentSOC := soc;
                currentPosition :=
                  {| lat := startLat segment; lng := startLng segment |} |}
             segment)).
Proof. reflexivity. Qed.

End PlannerLoop.

Lemma initialState_Ok segments initialSOC st0 :
  initialState segments initialSOC = Ok st0 ->
  stopsSoFar st0 = [] /\ currentSOC st0 = initialSOC.
Proof.
  destruct segments as [|first rest]; simpl; [discriminate|].
  intros H. injection H as <-. split; reflexivity.
Qed.


Lemma sumOf_nil {A : Type} (f : A -> R) : sumOf f [] = 0.
Proof. reflexivity. Qed.

Lemma sumOf_single {A : Type} (f : A -> R) (x : A) : sumOf f [x] = 0 + f x.
Proof. reflexivity. Qed.

(** ** The example directory *)

(** The example directory always selects its one station for the example
    vehicle. *)
Lemma lookup_exampleStation t capacity index position :
  lookupBestStation (exampleProviders t (Some [exampleStation]))
                    (exampleVehicle capacity) index position
  = Some exampleStation.
Proof. reflexivity. Qed.

(** One segment that trips the safety-buffer test, with the example
    station at hand: one stop, and the segment is driven from 80 %. *)
Lemma single_segment_with_station t capacity segment soc :
  soc - socNeededFor (exampleVehicle capacity) segment < 20 ->
  findOptimalChargingStops (exampleProviders t (Some [exampleStation]))
    [segment] (exampleVehicle capacity) soc
  = Ok [chargingSession (exampleVehicle capacity) exampleStation soc]
  /\ socTrajectory (exampleProviders t (Some [exampleStation]))
       [segment] (exampleVehicle capacity) soc
     = Ok [80 - socNeededFor (exampleVehicle capacity) segment].
Proof.
  intros Hlow.
  unfold findOptimalChargingStops, socTrajectory, initialState, mapOutcome.
  cbn [planLoop planTrace map].
  rewrite (planSegment_charge _ _ _ _ _ exampleStation).
  - split; reflexivity.
  - exact Hlow.
  - apply lookup_exampleStation.
Qed.

Lemma single_leg_with_station t capacity energy soc :
  soc - energy / capacity * 100 < 20 ->
  findOptimalChargingStops (exampleProviders t (Some [exampleStation]))
    [exampleLeg energy] (exampleVehicle capacity) soc
  = Ok [chargingSession (exampleVehicle capacity) exampleStation soc]
  /\ socTrajectory (exampleProviders t (Some [exampleStation]))
       [exampleLeg energy] (exampleVehicle capacity) soc
     = Ok [80 - energy / capacity * 100].
Proof. apply (single_segment_with_station t capacity (exampleLeg energy) soc). Qed.

Lemma single_leg_station_found t capacity energy soc :
  stationsAlwaysFound (exampleProviders t (Some [exampleStation]))
    [exampleLeg energy] (exampleVehicle capacity) soc.
Proof.
  unfold stationsAlwaysFound. simpl. split; [|exact I].
  intros _. exists exampleStation. split; [now left | reflexivity].
Qed.

(** ** Stops per segment *)

(** C10.  Whatever segment of whatever list the planner is at, the
    iteration for that segment leaves the stops found so far in place and
    appends at most one stop; the stops found before it are at most as
    many as the segments before it, the stops found after it at most as
    many as the segments after it, and the returned list is these three
    parts in order.  Hence the planner never returns more stops than
    segments (it throws only on an empty segment list), and a plan of
    [calculateOptimalRoute], built from exactly one segment, has at most
    one charging stop; [calculateOptimalRoute] throws only when the
    weather lookup throws. *)
Theorem chargingStops_at_most_one_per_segment
  (P : Providers) (vehicle : EVModel) (initialSOC : R) :
  (forall pre segment post,
      exists st0 extra later,
        initialState (pre ++ segment :: post) initialSOC = Ok st0
        /\ let index := List.length pre in
           let st := planLoop P vehicle 0 st0 pre in
           (List.length (stopsSoFar st) <= List.length pre)%nat
           /\ stopsSoFar (planSegment P vehicle index st segment)
              = stopsSoFar st ++ extra
           /\ (List.length extra <= 1)%nat
           /\ (List.length later <= List.length post)%nat
           /\ findOptimalChargingStops P (pre ++ segment :: post) vehicle
                                       initialSOC
              = Ok (stopsSoFar st ++ extra ++ later))
  /\ (forall segments,
        match findOptimalChargingStops P segments vehicle initialSOC with
        | Ok stops => (List.length stops <= List.length segments)%nat
        | Throw _ => segments = []
        end)
  /\ (forall origin destination weatherData,
        match calculateOptimalRoute P origin destination vehicle initialSOC
                                    weatherData with
        | Ok plan => List.length (segments plan) = 1%nat /\
                     (List.length (chargingStops plan) <= 1)%nat
        | Throw _ =>
            exists m, resolveWeather P origin destination weatherData = Throw m
        end).
Proof.
  split; [|split].
  - intros pre segment post.
    assert (Hinit : exists st0,
               initialState (pre ++ segment :: post) initialSOC = Ok st0
               /\ stopsSoFar st0 = []).
    { destruct pre; cbn [app initialState]; eexists; split; reflexivity. }
    destruct Hinit as (st0 & Hinit & Hempty).
    destruct (planSegment_stops P vehicle (List.length pre)
                (planLoop P vehicle 0 st0 pre) segment)
      as (extra & Hextra & Hone).
    destruct (planLoop_stops_extend P vehicle post (S (List.length pre))
                (planSegment P vehicle (List.length pre)
                   (planLoop P vehicle 0 st0 pre) segment))
      as (later & Hlater & Hlen).
    exists st0, extra, later. split; [exact Hinit|]. cbv zeta.
    split.
    { pose proof (planLoop_stops_length P vehicle pre 0%nat st0) as Hpre.
      rewrite Hempty in Hpre. exact Hpre. }
    split; [exact Hextra|]. split; [exact Hone|]. split; [exact Hlen|].
    unfold findOptimalChargingStops. rewrite Hinit. cbv [mapOutcome].
    rewrite planLoop_app. cbn [planLoop Nat.add].
    rewrite Hlater, Hextra. now rewrite app_assoc.
  - intros [|first rest]; [reflexivity|].
    unfold findOptimalChargingStops, initialState, mapOutcome.
    apply (planLoop_stops_length P vehicle (first :: rest) 0%nat).
  - intros origin destination weatherData.
    unfold calculateOptimalRoute.
    destruct (resolveWeather P origin destination weatherData) as [w | m].
    + unfold calculateRouteSegments, findOptimalChargingStops, initialState,
        mapOutcome. cbv zeta. split; [reflexivity|].
      cbn [chargingStops].
      match goal with
      | |- (List.length (stopsSoFar (planLoop _ _ _ ?st ?segs)) <= 1)%nat =>
          apply (planLoop_stops_length P vehicle segs 0%nat st)
      end.
    + now exists m.
Qed.

(** ** Soft planning failure *)

(** C2.  Let the planner, for a vehicle of positive battery capacity,
    arrive at a segment (after the segments [pre])
    with the safety-buffer test asking for a stop, while the directory's
    answer holds no available station with a compatible connector.  Then
    the run raises no error and goes on from a state with the same stops,
    the segment's SOC need subtracted and the position advanced; the SOC
    recorded at that boundary is below 20 (and may be negative). *)
Theorem soft_planning_failure
  (P : Providers) (vehicle : EVModel) (initialSOC : R)
  (pre post : list RouteSegment) (segment : RouteSegment) (st0 : PlannerState) :
  0 < batteryCapacity vehicle ->
  initialState (pre ++ segment :: post) initialSOC = Ok st0 ->
  let index := List.length pre in
  let st := planLoop P vehicle 0 st0 pre in
  needsCharge vehicle st segment ->
  (forall s, In s (nearbyStationsAt P vehicle index (currentPosition st)) ->
             isCompatible vehicle s = false) ->
  let st' := {| stopsSoFar := stopsSoFar st;
                currentSOC := currentSOC st - socNeededFor vehicle segment;
                currentPosition :=
                  {| lat := endLat segment; lng := endLng segment |} |} in
  findOptimalChargingStops P (pre ++ segment :: post) vehicle initialSOC
  = Ok (stopsSoFar (planLoop P vehicle (S index) st' post))
  /\ socTrajectory P (pre ++ segment :: post) vehicle initialSOC
     = Ok (map currentSOC (planTrace P vehicle 0 st0 pre)
           ++ currentSOC st' :: map currentSOC
                                    (planTrace P vehicle (S index) st' post))
  /\ currentSOC st' < 20.
Proof.
  intros _ Hinit index st Hneed Hnone st'.
  apply lookupBestStation_None in Hnone.
  pose proof (planSegment_no_station P vehicle index st segment Hneed Hnone)
    as Hstep.
  fold st' in Hstep.
  unfold findOptimalChargingStops, socTrajectory. rewrite Hinit. simpl.
  rewrite planLoop_app, planTrace_app. simpl.
  fold index st. rewrite Hstep, map_app. simpl.
  repeat split. exact Hneed.
Qed.

(** Arriving with 10 % at a leg that needs half of a 75 kWh battery, the
    live directory answering with no station: no stop, no error, and the
    SOC at the end of the leg is negative. *)
Lemma soft_planning_failure_witness :
  findOptimalChargingStops (exampleProviders 0 (Some []))
    [exampleLeg 37.5] (exampleVehicle 75) 10 = Ok []
  /\ exists soc,
      socTrajectory (exampleProviders 0 (Some []))
        [exampleLeg 37.5] (exampleVehicle 75) 10 = Ok [soc]
      /\ soc < 0.
Proof.
  destruct (soft_planning_failure (exampleProviders 0 (Some []))
              (exampleVehicle 75) 10 [] [] (exampleLeg 37.5)
              {| stopsSoFar := []; currentSOC := 10;
                 currentPosition := {| lat := 25.2048; lng := 55.2708 |} |})
    as (Hstops & Htraj & Hlow).
  - simpl. lra.
  - reflexivity.
  - unfold needsCharge, socNeededFor. simpl. lra.
  - intros s [].
  - split; [exact Hstops|].
    eexists. split; [exact Htraj|].
    unfold socNeededFor. simpl. lra.
Defined.

(** ** SOC along the run *)

(** C1, amended.  For a vehicle of positive battery capacity: if the
    directory holds an eligible station wherever the safety-buffer test
    asks for a stop, and no segment needs more than 80 % of the battery
    (the fixed departure SOC), then the run returns and [currentSOC] is at
    least 0 at every segment boundary, whatever the initial SOC. *)
Theorem soc_never_negative_when_stations_exist
  (P : Providers) (segments : list RouteSegment) (vehicle : EVModel)
  (initialSOC : R) :
  0 < batteryCapacity vehicle ->
  segments <> [] ->
  stationsAlwaysFound P segments vehicle initialSOC ->
  Forall (fun segment => socNeededFor vehicle segment <= 80) segments ->
  exists trajectory,
    socTrajectory P segments vehicle initialSOC = Ok trajectory
    /\ List.length trajectory = List.length segments
    /\ Forall (fun soc => 0 <= soc) trajectory.
Proof.
  intros _ Hne Hfound Hneed.
  destruct segments as [|first rest]; [contradiction|].
  unfold stationsAlwaysFound, socTrajectory in *.
  simpl initialState in *. cbv [mapOutcome].
  eexists. split; [reflexivity|]. split.
  - now rewrite length_map, planTrace_length.
  - apply Forall_map. now apply planTrace_nonneg.
Qed.

(** With 30 % on board, a 30 kWh leg and the example station: the stop is
    planned and every later boundary has a non-negative SOC. *)
Lemma soc_never_negative_when_stations_exist_witness :
  exists trajectory,
    socTrajectory (exampleProviders 0 (Some [exampleStation]))
      [exampleLeg 30] (exampleVehicle 75) 30 = Ok trajectory
    /\ List.length trajectory = 1%nat
    /\ Forall (fun soc => 0 <= soc) trajectory.
Proof.
  apply (soc_never_negative_when_stations_exist
           (exampleProviders 0 (Some [exampleStation]))
           [exampleLeg 30] (exampleVehicle 75) 30).
  - simpl. lra.
  - discriminate.
  - apply single_leg_station_found.
  - constructor; [|constructor]. unfold socNeededFor. simpl. lra.
Defined.

(** C1, counterexample.  A 75 kWh car leaves with 80 % on one leg that
    needs 76.4 kWh; the directory offers an eligible station, a stop is
    planned, and the SOC at the end of the leg is still negative. *)
Lemma soc_negative_despite_station :
  0 <= 80 <= 100
  /\ stationsAlwaysFound (exampleProviders 0 (Some [exampleStation]))
       [exampleLeg 76.4] (exampleVehicle 75) 80
  /\ exists soc,
      socTrajectory (exampleProviders 0 (Some [exampleStation]))
        [exampleLeg 76.4] (exampleVehicle 75) 80 = Ok [soc]
      /\ soc < 0.
Proof.
  split; [lra|]. split; [apply single_leg_station_found|].
  destruct (single_leg_with_station 0 75 76.4 80) as [_ Htraj]; [lra|].
  eexists. split; [exact Htraj | lra].
Qed.

(** ** Charging sessions *)



(** C5, the code at a failing input.  A fully charged 75 kWh car starts a
    leg that needs 67.5 kWh (90 %); the buffer test asks for a stop, the
    station is found, and the recorded stop has arrivalSOC 100 above
    departureSOC 80, chargingTime -18 and energyAdded -15. *)
Theorem charging_stop_above_target :
  exists stop,
    findOptimalChargingStops (exampleProviders 0 (Some [exampleStation]))
      [exampleLeg 67.5] (exampleVehicle 75) 100 = Ok [stop]
    /\ arrivalSOC stop = 100
    /\ departureSOC stop = 80
    /\ chargingTime stop = -18
    /\ energyAdded stop = -15.
Proof.
  destruct (single_leg_with_station 0 75 67.5 100) as [Hstops _]; [lra|].
  eexists. split; [exact Hstops|].
  unfold chargingSession, exampleVehicle, exampleStation. cbn.
  repeat split.
  - apply (Math_round_eq 100). lra.
  - apply (Math_round_eq (-18)). unfold Math_min.
    rewrite Rmin_left by lra. lra.
  - rewrite (Math_round_eq (-150)) by lra. lra.
Qed.

(** ** Elevation profile *)

Lemma interpolateLoop_length start end_ numPoints :
  forall remaining i,
    List.length (interpolateLoop start end_ numPoints i remaining) = remaining.
Proof.
  induction remaining as [|k IH]; intros i; simpl; auto.
Qed.

Lemma interpolateLoop_nth start end_ numPoints :
  forall remaining i j,
    (j < remaining)%nat ->
    nth_error (interpolateLoop start end_ numPoints i remaining) j
    = Some (pointAt start end_ (INR (i + j)) (INR numPoints)).
Proof.
  induction remaining as [|k IH]; intros i j Hj; [lia|].
  destruct j as [|j]; simpl.
  - now rewrite Nat.add_0_r.
  - rewrite IH by lia. now rewrite Nat.add_succ_r.
Qed.

Lemma elevationGainLoop_sum (profile : list ElevationData) :
  forall totalGain,
    elevationGainLoop totalGain profile
    = totalGain + sumPositiveDeltas (map elevation profile).
Proof.
  induction profile as [|prev rest IH]; intros totalGain; [simpl; lra|].
  destruct rest as [|cur rest]; [simpl; lra|].
  change (elevationGainLoop totalGain (prev :: cur :: rest))
    with (elevationGainLoop
            (if Rgt_dec (elevation cur - elevation prev) 0
             then totalGain + (elevation cur - elevation prev)
             else totalGain) (cur :: rest)).
  rewrite IH.
  change (sumPositiveDeltas (map elevation (prev :: cur :: rest)))
    with (Math_max 0 (elevation cur - elevation prev)
          + sumPositiveDeltas (map elevation (cur :: rest))).
  unfold Math_max.
  destruct (Rgt_dec (elevation cur - elevation prev) 0) as [Hup | Hdown].
  - rewrite Rmax_right by lra. lra.
  - rewrite Rmax_left by lra. lra.
Qed.

Lemma calculateOptimalRoute_returns P origin destination vehicle initialSOC
  weatherData weather :
  resolveWeather P origin destination weatherData = Ok weather ->
  exists plan,
    calculateOptimalRoute P origin destination vehicle initialSOC weatherData
    = Ok plan
    /\ plan_id plan = routeId (now P)
    /\ segments plan
       = calculateRouteSegments origin destination vehicle
           (getElevationProfile P origin destination) weather
    /\ findOptimalChargingStops P (segments plan) vehicle initialSOC
       = Ok (chargingStops plan)
    /\ finalSOC plan
       = Math_round (finalSOCBeforeRounding initialSOC vehicle (segments plan)
                                            (chargingStops plan)).
Proof.
  intros Hw. unfold calculateOptimalRoute. rewrite Hw.
  unfold calculateRouteSegments at 1.
  unfold findOptimalChargingStops at 1, initialState, mapOutcome. cbv zeta.
  eexists. split; [reflexivity|]. cbn [plan_id segments chargingStops finalSOC].
  repeat split.
Qed.

Lemma getElevationProfile_fallback P origin destination :
  elevationApi P (interpolateRoutePoints origin destination 10) = None ->
  getElevationProfile P origin destination
  = [ {| elevation := 50; distance_from_start := 0 |};
      {| elevation := 50;
         distance_from_start :=
           calculateDistance (lat origin) (lng origin)
                             (lat destination) (lng destination) |} ]
  /\ calculateElevationGain (getElevationProfile P origin destination) = 0.
Proof.
  intros Hfail.
  assert (Hflat : getElevationProfile P origin destination
                  = [ {| elevation := 50; distance_from_start := 0 |};
                      {| elevation := 50;
                         distance_from_start :=
                           calculateDistance (lat origin) (lng origin)
                             (lat destination) (lng destination) |} ]).
  { unfold getElevationProfile. now rewrite Hfail. }
  split; [exact Hflat|]. rewrite Hflat.
  unfold calculateElevationGain. cbn [elevationGainLoop elevation].
  destruct (Rgt_dec (50 - 50) 0) as [Hpos | _]; [lra|].
  apply (Math_round_IZR 0).
Qed.

(** C8, amended.  The profile request samples 11 points, the i-th at
    fraction i/10 of the straight line from origin to destination (both
    endpoints included); the elevation gain of a profile is a whole
    number within one half of the sum of its positive consecutive deltas
    (descents add nothing and subtract nothing); and when the elevation
    lookup fails the profile is two points of elevation 50 with gain 0,
    and the route calculation still returns a plan. *)
Theorem elevation_profile_builder
  (P : Providers) (origin destination : RoutePoint)
  (profile : list ElevationData) :
  let points := interpolateRoutePoints origin destination 10 in
  List.length points = 11%nat
  /\ (forall i, (i <= 10)%nat ->
                nth_error points i = Some (pointAt origin destination (INR i) 10))
  /\ (exists n : Z, calculateElevationGain profile = IZR n)
  /\ Rabs (calculateElevationGain profile
           - sumPositiveDeltas (map elevation profile)) <= / 2
  /\ (elevationApi P points = None ->
      getElevationProfile P origin destination
      = [ {| elevation := 50; distance_from_start := 0 |};
          {| elevation := 50;
             distance_from_start :=
               calculateDistance (lat origin) (lng origin)
                                 (lat destination) (lng destination) |} ]
      /\ calculateElevationGain (getElevationProfile P origin destination) = 0
      /\ forall vehicle initialSOC weather,
          exists plan,
            calculateOptimalRoute P origin destination vehicle initialSOC
                                  (Some weather) = Ok plan).
Proof.
  intros points. split; [|split; [|split; [|split]]].
  - apply interpolateLoop_length.
  - intros i Hi. unfold points, interpolateRoutePoints.
    rewrite interpolateLoop_nth by lia.
    replace (INR 10) with 10 by (simpl; lra). reflexivity.
  - unfold calculateElevationGain, Math_round. eexists. reflexivity.
  - unfold calculateElevationGain. rewrite elevationGainLoop_sum.
    rewrite Rplus_0_l. apply Math_round_close.
  - intros Hfail.
    destruct (getElevationProfile_fallback P origin destination Hfail)
      as [Hflat Hgain].
    split; [exact Hflat|]. split; [exact Hgain|].
    intros vehicle initialSOC weather.
    destruct (calculateOptimalRoute_returns P origin destination vehicle
                  initialSOC (Some weather) weather eq_refl)
        as (plan & Hplan & _).
      now exists plan.
Qed.

(** C8, counterexample.  Between Dubai and Abu Dhabi the request samples
    11 points, not 10; and a profile rising from 50 m to 50.4 m has gain 0,
    not the sum 0.4 of its positive deltas. *)
Lemma elevation_profile_counterexample :
  List.length (interpolateRoutePoints {| lat := 25.2048; lng := 55.2708 |}
                                      {| lat := 24.4539; lng := 54.3773 |} 10)
  <> 10%nat
  /\ calculateElevationGain
       [ {| elevation := 50; distance_from_start := 0 |};
         {| elevation := 50.4; distance_from_start := 140 |} ]
     <> sumPositiveDeltas [50; 50.4].
Proof.
  split.
  - unfold interpolateRoutePoints. rewrite interpolateLoop_length. discriminate.
  - unfold calculateElevationGain. rewrite elevationGainLoop_sum.
    cbn [map elevation sumPositiveDeltas]. unfold Math_max.
    rewrite Rmax_right by lra.
    rewrite (Math_round_eq 0) by lra. lra.
Qed.

(** ** Determinism *)

Lemma planLoop_atTime t P vehicle segments :
  forall index st,
    planLoop (atTime t P) vehicle index st segments
    = planLoop P vehicle index st segments.
Proof.
  induction segments as [|segment rest IH]; intros index st; simpl;
    [reflexivity|].
  rewrite IH. reflexivity.
Qed.

(** C4, amended.  Run with the same inputs and the same provider answers
    at another time [t], [calculateOptimalRoute] returns the same outcome
    except for the plan's id, which is derived from the clock: every other
    field of the RoutePlan is identical. *)
Theorem calculateOptimalRoute_deterministic_up_to_id
  (t : N) (P : Providers) (origin destination : RoutePoint)
  (vehicle : EVModel) (initialSOC : R) (weatherData : option WeatherData) :
  calculateOptimalRoute (atTime t P) origin destination vehicle initialSOC
                        weatherData
  = mapOutcome (withPlanId (routeId t))
      (calculateOptimalRoute P origin destination vehicle initialSOC
                             weatherData).
Proof.
  unfold calculateOptimalRoute.
  change (resolveWeather (atTime t P) origin destination weatherData)
    with (resolveWeather P origin destination weatherData).
  change (getElevationProfile (atTime t P) origin destination)
    with (getElevationProfile P origin destination).
  destruct (resolveWeather P origin destination weatherData) as [w | m];
    [|reflexivity].
  unfold findOptimalChargingStops, calculateRouteSegments, initialState,
    mapOutcome. cbv zeta.
  rewrite planLoop_atTime. reflexivity.
Qed.

(** C4, counterexample.  The same request, with the same elevation,
    weather and station answers, made at clock readings 0 and 1, returns
    two different plans. *)
Lemma calculateOptimalRoute_id_differs :
  calculateOptimalRoute (exampleProviders 0 (Some [exampleStation]))
    {| lat := 25.2048; lng := 55.2708 |} {| lat := 24.4539; lng := 54.3773 |}
    (exampleVehicle 75) 75 (Some mildWeather)
  <> calculateOptimalRoute (exampleProviders 1 (Some [exampleStation]))
       {| lat := 25.2048; lng := 55.2708 |} {| lat := 24.4539; lng := 54.3773 |}
       (exampleVehicle 75) 75 (Some mildWeather).
Proof.
  destruct (calculateOptimalRoute_returns
              (exampleProviders 0 (Some [exampleStation]))
              {| lat := 25.2048; lng := 55.2708 |}
              {| lat := 24.4539; lng := 54.3773 |}
              (exampleVehicle 75) 75 (Some mildWeather) mildWeather eq_refl)
    as (plan0 & Hplan0 & Hid0 & _).
  destruct (calculateOptimalRoute_returns
              (exampleProviders 1 (Some [exampleStation]))
              {| lat := 25.2048; lng := 55.2708 |}
              {| lat := 24.4539; lng := 54.3773 |}
              (exampleVehicle 75) 75 (Some mildWeather) mildWeather eq_refl)
    as (plan1 & Hplan1 & Hid1 & _).
  rewrite Hplan0, Hplan1. intros Heq. injection Heq as Heq.
  rewrite Heq, Hid1 in Hid0. discriminate Hid0.
Qed.

(** ** Final SOC *)

Lemma calculateDistance_same_point (lat0 lng0 : R) :
  calculateDistance lat0 lng0 lat0 lng0 = 0.
Proof.
  unfold calculateDistance, Math_sin, Math_cos, Math_sqrt, Math_PI. cbv zeta.
  replace ((lat0 - lat0) * PI / 180 / 2) with 0 by lra.
  replace ((lng0 - lng0) * PI / 180 / 2) with 0 by lra.
  rewrite sin_0.
  replace (0 * 0 + cos (lat0 * PI / 180) * cos (lat0 * PI / 180) * 0 * 0)
    with 0 by lra.
  rewrite Rminus_0_r, sqrt_0, sqrt_1.
  unfold Math_atan2.
  destruct (Rlt_dec 0 1) as [_ | Hn]; [|lra].
  replace (0 / 1) with 0 by lra. rewrite atan_0. lra.
Qed.

Lemma calculateRouteSegments_single origin destination vehicle profile weather :
  exists segment,
    calculateRouteSegments origin destination vehicle profile weather
    = [segment]
    /\ 0 <= energyRequired segment
    /\ energyRequired segment
       = Math_round
           (calculateEnergyConsumption
              (calculateDistance (lat origin) (lng origin)
                                 (lat destination) (lng destination))
              (calculateElevationGain profile) vehicle weather * 10) / 10.
Proof.
  unfold calculateRouteSegments. cbv zeta. eexists. split; [reflexivity|].
  cbn [energyRequired]. split; [|reflexivity].
  pose proof (calculateEnergyConsumption_nonneg
                (calculateDistance (lat origin) (lng origin)
                                   (lat destination) (lng destination))
                (calculateElevationGain profile) vehicle weather) as He.
  match goal with
  | |- 0 <= Math_round ?x / 10 =>
      assert (0 <= Math_round x) by (apply Math_round_nonneg; lra); lra
  end.
Qed.

(** With one segment and a battery of at least a quarter kWh, the energy
    balance behind [finalSOC] never exceeds 100. *)
Lemma single_segment_balance P vehicle segment soc stops :
  soc <= 100 ->
  / 4 <= batteryCapacity vehicle ->
  0 <= energyRequired segment ->
  findOptimalChargingStops P [segment] vehicle soc = Ok stops ->
  soc - sumOf energyRequired [segment] / batteryCapacity vehicle * 100
  + sumOf energyAdded stops / batteryCapacity vehicle * 100 <= 100.
Proof.
  intros Hsoc Hcap Henergy Hstops.
  rewrite findOptimalChargingStops_single in Hstops.
  set (cap := batteryCapacity vehicle) in *.
  assert (Hcap0 : 0 < cap) by lra.
  assert (Hi : 0 < / cap) by now apply Rinv_0_lt_compat.
  assert (Hi4 : / cap <= 4).
  { replace 4 with (/ / 4) by lra. apply Rinv_le_contravar; lra. }
  assert (Hci : cap * / cap = 1) by (apply Rinv_r; lra).
  rewrite sumOf_single.
  assert (Hneed : 0 <= (0 + energyRequired segment) / cap * 100).
  { unfold Rdiv.
    assert (0 <= energyRequired segment * / cap)
      by (apply Rmult_le_pos; lra).
    lra. }
  match type of Hstops with
  | context [planSegment ?P ?v ?i ?st ?seg] =>
      destruct (planSegment_cases P v i st seg)
        as [(best & _ & _ & Heq) | (_ & Heq)]; rewrite Heq in Hstops
  end; cbn [stopsSoFar currentSOC app] in Hstops; injection Hstops as <-.
  - rewrite sumOf_single. unfold chargingSession. cbn [energyAdded].
    fold cap.
    destruct (Math_round_bounds (cap * (80 - soc) / 100 * 10)) as [_ Hup].
    set (r := Math_round (cap * (80 - soc) / 100 * 10)) in *.
    assert (Hr : r * / cap <= (cap * (80 - soc) / 100 * 10 + / 2) * / cap)
      by (apply Rmult_le_compat_r; lra).
    replace ((cap * (80 - soc) / 100 * 10 + / 2) * / cap)
      with ((cap * / cap) * ((80 - soc) / 10) + / 2 * / cap) in Hr by lra.
    rewrite Hci in Hr.
    unfold Rdiv in *. lra.
  - rewrite sumOf_nil. unfold Rdiv in *. lra.
Qed.

(** C3, amended.  For an initial SOC of at most 100 and a battery of at
    least 0.25 kWh, whenever the weather is available the call returns a
    plan whose finalSOC is a whole number within one half (the display
    rounding) of the clamp to [0, 100] of
    initialSOC - (segment energy as % of capacity) + (energyAdded of the
    stops as % of capacity), and 0 <= finalSOC <= 100. *)
Theorem finalSOC_clamped
  (P : Providers) (origin destination : RoutePoint) (vehicle : EVModel)
  (initialSOC : R) (weatherData : option WeatherData) (weather : WeatherData) :
  initialSOC <= 100 ->
  / 4 <= batteryCapacity vehicle ->
  resolveWeather P origin destination weatherData = Ok weather ->
  exists plan,
    calculateOptimalRoute P origin destination vehicle initialSOC weatherData
    = Ok plan
    /\ (exists n : Z, finalSOC plan = IZR n)
    /\ Rabs (finalSOC plan
             - clamp (initialSOC
                      - sumOf energyRequired (segments plan)
                        / batteryCapacity vehicle * 100
                      + sumOf energyAdded (chargingStops plan)
                        / batteryCapacity vehicle * 100) 0 100) <= / 2
    /\ 0 <= finalSOC plan <= 100.
Proof.
  intros Hsoc Hcap Hw.
  destruct (calculateOptimalRoute_returns P origin destination vehicle
              initialSOC weatherData weather Hw)
    as (plan & Hplan & _ & Hsegs & Hstops & Hfinal).
  exists plan. split; [exact Hplan|].
  destruct (calculateRouteSegments_single origin destination vehicle
              (getElevationProfile P origin destination) weather)
    as (segment & Hone & Henergy & _).
  rewrite Hone in Hsegs. rewrite Hsegs in Hstops.
  pose proof (single_segment_balance P vehicle segment initialSOC
                (chargingStops plan) Hsoc Hcap Henergy Hstops) as Hbal.
  rewrite Hfinal. unfold finalSOCBeforeRounding. rewrite Hsegs. cbv zeta.
  set (x := initialSOC
            - sumOf energyRequired [segment] / batteryCapacity vehicle * 100
            + sumOf energyAdded (chargingStops plan)
              / batteryCapacity vehicle * 100) in *.
  assert (Hclamp : clamp x 0 100 = Math_max 0 x).
  { unfold clamp, Math_min, Math_max. rewrite (Rmax_comm x 0).
    apply Rmin_left. apply Rmax_lub; lra. }
  rewrite Hclamp. split; [unfold Math_round; eexists; reflexivity|].
  split; [apply Math_round_close|].
  unfold Math_max. split.
  - apply Math_round_nonneg, Rmax_l.
  - rewrite <- (Math_round_IZR 100). apply Math_round_le.
    apply Rmax_lub; lra.
Qed.

(** Scenario A of the design: Dubai to Abu Dhabi in a 75 kWh car starting
    at 75 %. *)
Lemma finalSOC_clamped_witness :
  exists plan,
    calculateOptimalRoute (exampleProviders 0 (Some [exampleStation]))
      {| lat := 25.2048; lng := 55.2708 |} {| lat := 24.4539; lng := 54.3773 |}
      (exampleVehicle 75) 75 (Some mildWeather) = Ok plan
    /\ (exists n : Z, finalSOC plan = IZR n)
    /\ Rabs (finalSOC plan
             - clamp (75 - sumOf energyRequired (segments plan) / 75 * 100
                      + sumOf energyAdded (chargingStops plan) / 75 * 100)
                     0 100) <= / 2
    /\ 0 <= finalSOC plan <= 100.
Proof.
  apply (finalSOC_clamped (exampleProviders 0 (Some [exampleStation]))
           {| lat := 25.2048; lng := 55.2708 |}
           {| lat := 24.4539; lng := 54.3773 |}
           (exampleVehicle 75) 75 (Some mildWeather) mildWeather).
  - lra.
  - simpl. lra.
  - reflexivity.
Defined.

(** C3, counterexample.  A vehicle with a 0.1 kWh battery at 10 % asks for
    a route from a point to itself.  The leg needs no energy, the buffer
    test still asks for a stop, and the stop's energyAdded is 0.07 kWh
    rounded up to 0.1 kWh, a full battery: finalSOC is 110. *)
Lemma finalSOC_exceeds_100 :
  exists plan,
    calculateOptimalRoute (exampleProviders 0 (Some [exampleStation]))
      {| lat := 25.2048; lng := 55.2708 |} {| lat := 25.2048; lng := 55.2708 |}
      (exampleVehicle 0.1) 10 (Some mildWeather) = Ok plan
    /\ 0 <= 10 <= 100
    /\ 0 < batteryCapacity (exampleVehicle 0.1)
    /\ Forall (fun segment => 0 <= energyRequired segment) (segments plan)
    /\ finalSOC plan = 110
    /\ ~ (0 <= finalSOC plan <= 100).
Proof.
  destruct (calculateOptimalRoute_returns
              (exampleProviders 0 (Some [exampleStation]))
              {| lat := 25.2048; lng := 55.2708 |}
              {| lat := 25.2048; lng := 55.2708 |}
              (exampleVehicle 0.1) 10 (Some mildWeather) mildWeather eq_refl)
    as (plan & Hplan & _ & Hsegs & Hstops & Hfinal).
  exists plan. split; [exact Hplan|].
  destruct (calculateRouteSegments_single
              {| lat := 25.2048; lng := 55.2708 |}
              {| lat := 25.2048; lng := 55.2708 |} (exampleVehicle 0.1)
              (getElevationProfile (exampleProviders 0 (Some [exampleStation]))
                 {| lat := 25.2048; lng := 55.2708 |}
                 {| lat := 25.2048; lng := 55.2708 |}) mildWeather)
    as (segment & Hone & Hnonneg & Henergy).
  rewrite Hone in Hsegs.
  assert (Hzero : energyRequired segment = 0).
  { rewrite Henergy. cbn [lat lng].
    rewrite calculateDistance_same_point.
    destruct (getElevationProfile_fallback
                (exampleProviders 0 (Some [exampleStation]))
                {| lat := 25.2048; lng := 55.2708 |}
                {| lat := 25.2048; lng := 55.2708 |} eq_refl) as [_ Hgain].
    rewrite Hgain.
    unfold calculateEnergyConsumption.
    rewrite calculateAirResistanceImpact_linear. cbv zeta.
    unfold Math_max. rewrite Rmax_left by lra.
    rewrite (Math_round_eq 0) by lra. lra. }
  assert (Hneed : socNeededFor (exampleVehicle 0.1) segment = 0).
  { unfold socNeededFor. rewrite Hzero. simpl. lra. }
  destruct (single_segment_with_station 0 0.1 segment 10) as [Hrun _];
    [rewrite Hneed; lra|].
  rewrite Hsegs, Hrun in Hstops. injection Hstops as Hstops.
  assert (Hvalue : finalSOC plan = 110).
  { rewrite Hfinal. unfold finalSOCBeforeRounding.
    rewrite Hsegs, <- Hstops, !sumOf_single, Hzero.
    unfold chargingSession. cbn [energyAdded batteryCapacity exampleVehicle].
    rewrite (Math_round_eq 1 (0.1 * (80 - 10) / 100 * 10)) by lra.
    unfold Math_max. rewrite Rmax_right by lra.
    apply (Math_round_eq 110). lra. }
  split; [lra|]. split; [simpl; lra|]. split.
  - rewrite Hsegs. constructor; [lra | constructor].
  - split; [exact Hvalue|]. rewrite Hvalue. lra.
Qed.

(** ** Well-formed stops *)

(** A session opened with an SOC between 0 and 80, on a battery of
    positive capacity and at positive power, is a well-formed stop. *)
Lemma chargingSession_well_formed vehicle best soc :
  0 < batteryCapacity vehicle ->
  0 < Math_min (maxPower best) (maxChargingSpeed vehicle) ->
  0 <= soc <= 80 ->
  let stop := chargingSession vehicle best soc in
  0 <= arrivalSOC stop <= 100
  /\ 0 <= departureSOC stop <= 100
  /\ arrivalSOC stop <= departureSOC stop
  /\ 0 <= chargingTime stop
  /\ 0 <= energyAdded stop.
Proof.
  intros Hcap Hpower [Hlo Hhi]. unfold chargingSession. cbn.
  assert (Harr : 0 <= Math_round soc <= 80).
  { split; [now apply Math_round_nonneg|].
    rewrite <- (Math_round_IZR 80). now apply Math_round_le. }
  assert (Hadd : 0 <= batteryCapacity vehicle * (80 - soc) / 100).
  { assert (0 <= batteryCapacity vehicle * (80 - soc))
      by (apply Rmult_le_pos; lra).
    lra. }
  repeat split; try lra.
  - apply Math_round_nonneg.
    apply Rmult_le_pos; [|lra].
    apply Rmult_le_pos; [exact Hadd|].
    apply Rlt_le. now apply Rinv_0_lt_compat.
  - assert (0 <= Math_round (batteryCapacity vehicle * (80 - soc) / 100 * 10))
      by (apply Math_round_nonneg; lra).
    lra.
Qed.

(** X1, the inputs on which C5 holds.  For an initial SOC between 0 and 80, a battery of
    positive capacity and available weather, [calculateOptimalRoute]
    returns a plan each of whose stops, when charged at positive power,
    has arrivalSOC and departureSOC in [0, 100], departureSOC at least
    arrivalSOC, and non-negative chargingTime and energyAdded. *)
Theorem charging_stops_well_formed_up_to_80
  (P : Providers) (origin destination : RoutePoint) (vehicle : EVModel)
  (initialSOC : R) (weatherData : option WeatherData) (weather : WeatherData) :
  0 <= initialSOC <= 80 ->
  0 < batteryCapacity vehicle ->
  resolveWeather P origin destination weatherData = Ok weather ->
  exists plan,
    calculateOptimalRoute P origin destination vehicle initialSOC weatherData
    = Ok plan
    /\ forall stop,
        In stop (chargingStops plan) ->
        0 < Math_min (maxPower (station stop)) (maxChargingSpeed vehicle) ->
        0 <= arrivalSOC stop <= 100
        /\ 0 <= departureSOC stop <= 100
        /\ arrivalSOC stop <= departureSOC stop
        /\ 0 <= chargingTime stop
        /\ 0 <= energyAdded stop.
Proof.
  intros Hsoc Hcap Hw.
  destruct (calculateOptimalRoute_returns P origin destination vehicle
              initialSOC weatherData weather Hw)
    as (plan & Hplan & _ & Hsegs & Hstops & _).
  exists plan. split; [exact Hplan|].
  destruct (calculateRouteSegments_single origin destination vehicle
              (getElevationProfile P origin destination) weather)
    as (segment & Hone & _ & _).
  rewrite Hone in Hsegs. rewrite Hsegs in Hstops.
  rewrite findOptimalChargingStops_single in Hstops.
  match type of Hstops with
  | context [planSegment ?P ?v ?i ?st ?seg] =>
      destruct (planSegment_cases P v i st seg)
        as [(best & _ & _ & Heq) | (_ & Heq)]; rewrite Heq in Hstops
  end; cbn [stopsSoFar currentSOC app] in Hstops; injection Hstops as <-.
  - intros stop [<- | []] Hpower.
    apply chargingSession_well_formed; assumption.
  - intros stop [].
Qed.

(** Leaving Dubai for Abu Dhabi with 30 % in a 75 kWh car. *)
Lemma charging_stops_well_formed_up_to_80_witness :
  exists plan,
    calculateOptimalRoute (exampleProviders 0 (Some [exampleStation]))
      {| lat := 25.2048; lng := 55.2708 |} {| lat := 24.4539; lng := 54.3773 |}
      (exampleVehicle 75) 30 (Some mildWeather) = Ok plan
    /\ forall stop,
        In stop (chargingStops plan) ->
        0 < Math_min (maxPower (station stop))
                     (maxChargingSpeed (exampleVehicle 75)) ->
        0 <= arrivalSOC stop <= 100
        /\ 0 <= departureSOC stop <= 100
        /\ arrivalSOC stop <= departureSOC stop
        /\ 0 <= chargingTime stop
        /\ 0 <= energyAdded stop.
Proof.
  apply (charging_stops_well_formed_up_to_80
           (exampleProviders 0 (Some [exampleStation]))
           {| lat := 25.2048; lng := 55.2708 |}
           {| lat := 24.4539; lng := 54.3773 |}
           (exampleVehicle 75) 30 (Some mildWeather) mildWeather).
  - lra.
  - simpl. lra.
  - reflexivity.
Defined.

(** ** Fallback stations and the haversine distance *)

Lemma PI_bounds : 3 < PI <= 4.
Proof. split; [pose proof PI2_3_2; lra | apply PI_4]. Qed.

Lemma tan_lt_sin_double (e : R) : 0 < e < / 2 -> tan e < sin (2 * e).
Proof.
  intros [He0 He1]. pose proof PI_bounds as [Hpi _].
  assert (Hs0 : 0 < sin e) by (apply sin_gt_0; lra).
  assert (Hs1 : sin e < e) by now apply sin_lt_x.
  assert (Hc : 0 < cos e) by (apply cos_gt_0; lra).
  pose proof (sin2_cos2 e) as Hsc. unfold Rsqr in Hsc.
  rewrite sin_2a. unfold tan, Rdiv.
  apply Rmult_lt_reg_r with (cos e); [exact Hc|].
  rewrite Rmult_assoc, Rinv_l by lra.
  assert (sin e * sin e < / 4) by nra.
  nra.
Qed.

Lemma atan_gt (t e : R) : 0 < e < / 2 -> tan e < t -> e < atan t.
Proof.
  intros He Ht. pose proof PI_bounds as [Hpi _].
  rewrite <- (atan_tan e) by lra. now apply atan_increasing.
Qed.

Lemma Math_atan2_lower (y x e : R) :
  0 < e < / 2 -> tan e < y -> 0 <= x <= 1 -> e < Math_atan2 y x.
Proof.
  intros He Hy [Hx0 Hx1]. pose proof PI_bounds as [Hpi _].
  assert (Hte : 0 < tan e) by (apply tan_gt_0; lra).
  unfold Math_atan2.
  destruct (Rlt_dec 0 x) as [Hpos | Hnpos].
  - apply atan_gt; [exact He|].
    apply Rlt_le_trans with y; [exact Hy|].
    unfold Rdiv. rewrite <- (Rmult_1_r y) at 1.
    apply Rmult_le_compat_l; [lra|].
    rewrite <- Rinv_1. apply Rinv_le_contravar; lra.
  - destruct (Rlt_dec x 0) as [Hneg | _]; [lra|].
    destruct (Rlt_dec 0 y) as [_ | Hny]; lra.
Qed.

Lemma cos_degrees_nonneg (d : R) : -90 <= d <= 90 -> 0 <= cos (d * PI / 180).
Proof.
  intros [Hlo Hhi]. pose proof PI_bounds as [Hpi _].
  apply cos_ge_0; nra.
Qed.

(** Two points at least three degrees of latitude apart are more than
    50 km from each other. *)
Lemma calculateDistance_over_50 (lat1 lon1 lat2 lon2 : R) :
  -90 <= lat1 <= 90 -> -90 <= lat2 <= 90 -> 3 <= lat1 - lat2 ->
  50 < RealChargingStationService.calculateDistance lat1 lon1 lat2 lon2.
Proof.
  intros H1 H2 Hgap. pose proof PI_bounds as [Hpi3 Hpi4].
  unfold RealChargingStationService.calculateDistance,
    Math_sin, Math_cos, Math_sqrt, Math_PI. cbv zeta.
  set (h := (lat1 - lat2) * PI / 360).
  replace ((lat2 - lat1) * PI / 180 / 2) with (- h) by (unfold h; lra).
  rewrite sin_neg.
  assert (Hh0 : 2 * 0.004 <= h) by (unfold h; nra).
  assert (Hh1 : h <= PI / 2) by (unfold h; nra).
  assert (Hsin : tan 0.004 < sin h).
  { apply Rlt_le_trans with (sin (2 * 0.004)).
    - apply tan_lt_sin_double. lra.
    - apply sin_incr_1; lra. }
  assert (Htan : 0 < tan 0.004) by (apply tan_gt_0; lra).
  set (k := cos (lat1 * PI / 180) * cos (lat2 * PI / 180)
            * sin ((lon2 - lon1) * PI / 180 / 2)
            * sin ((lon2 - lon1) * PI / 180 / 2)).
  assert (Hk : 0 <= k).
  { unfold k.
    pose proof (cos_degrees_nonneg lat1 H1) as Hc1.
    pose proof (cos_degrees_nonneg lat2 H2) as Hc2.
    pose proof (Rle_0_sqr (sin ((lon2 - lon1) * PI / 180 / 2))) as Hs.
    unfold Rsqr in Hs.
    rewrite Rmult_assoc. apply Rmult_le_pos; [now apply Rmult_le_pos | exact Hs]. }
  set (a := - sin h * - sin h + k).
  assert (Ha : sin h * sin h <= a) by (unfold a; lra).
  assert (Hy : tan 0.004 < sqrt a).
  { apply Rlt_le_trans with (sin h); [exact Hsin|].
    rewrite <- (sqrt_square (sin h)) by lra.
    now apply sqrt_le_1_alt. }
  assert (Hx : 0 <= sqrt (1 - a) <= 1).
  { split; [apply sqrt_pos|].
    assert (0 <= sin h * sin h) by (apply Rmult_le_pos; lra).
    apply Rle_trans with (sqrt 1); [apply sqrt_le_1_alt; lra|].
    rewrite sqrt_1. lra. }
  pose proof (Math_atan2_lower (sqrt a) (sqrt (1 - a)) 0.004) as Hc.
  lra.
Qed.

Lemma filter_none {A : Type} (f : A -> bool) (xs : list A) :
  (forall x, In x xs -> f x = false) -> filter f xs = [].
Proof.
  induction xs as [|x xs IH]; intros Hall; simpl; [reflexivity|].
  rewrite (Hall x) by now left.
  apply IH. intros y Hy. apply Hall. now right.
Qed.

Lemma withinRadius_true request s :
  withinRadius request s = true <->
  RealChargingStationService.calculateDistance
    (req_lat request) (req_lng request) (station_lat s) (station_lng s)
  <= radiusKm request.
Proof.
  unfold withinRadius. cbv zeta.
  destruct (Rle_dec _ (radiusKm request)); split; intros H;
    auto; try discriminate; contradiction.
Qed.

(** C7, amended.  With the live source unreachable, [getNearbyStations]
    returns, in table order, exactly the entries of the curated nine-station
    table whose haversine distance (Earth radius 6371 km, the same function
    as in the route service) from the query point is at most the requested
    radius.  The list holds every table entry located at the query point
    when the radius is not negative; it can be empty otherwise. *)
Theorem fallback_stations_filtered (request : PublicChargingStationsRequest) :
  getNearbyStations None request = filter (withinRadius request) fallbackStations
  /\ List.length fallbackStations = 9%nat
  /\ (forall s,
        In s (getNearbyStations None request) <->
        In s fallbackStations
        /\ RealChargingStationService.calculateDistance
             (req_lat request) (req_lng request) (station_lat s) (station_lng s)
           <= radiusKm request)
  /\ (forall lat1 lon1 lat2 lon2,
        RealChargingStationService.calculateDistance lat1 lon1 lat2 lon2
        = DynamicRouteCalculationService.calculateDistance lat1 lon1 lat2 lon2
        /\ RealChargingStationService.calculateDistance lat1 lon1 lat2 lon2
           = 6371 * (2 * Math_atan2
                       (Math_sqrt
                          (Math_sin ((lat2 - lat1) * Math_PI / 180 / 2)
                           * Math_sin ((lat2 - lat1) * Math_PI / 180 / 2)
                           + Math_cos (lat1 * Math_PI / 180)
                             * Math_cos (lat2 * Math_PI / 180)
                             * Math_sin ((lon2 - lon1) * Math_PI / 180 / 2)
                             * Math_sin ((lon2 - lon1) * Math_PI / 180 / 2)))
                       (Math_sqrt
                          (1 - (Math_sin ((lat2 - lat1) * Math_PI / 180 / 2)
                                * Math_sin ((lat2 - lat1) * Math_PI / 180 / 2)
                                + Math_cos (lat1 * Math_PI / 180)
                                  * Math_cos (lat2 * Math_PI / 180)
                                  * Math_sin ((lon2 - lon1) * Math_PI / 180 / 2)
                                  * Math_sin ((lon2 - lon1) * Math_PI / 180 / 2))))))
  /\ (forall s,
        In s fallbackStations ->
        req_lat request = station_lat s ->
        req_lng request = station_lng s ->
        0 <= radiusKm request ->
        In s (getNearbyStations None request)).
Proof.
  split; [reflexivity|]. split; [reflexivity|]. split; [|split].
  - intros s. unfold getNearbyStations, getFallbackStations. cbv zeta.
    rewrite filter_In, withinRadius_true. reflexivity.
  - intros lat1 lon1 lat2 lon2. split; reflexivity.
  - intros s Hin Hlat Hlng Hradius.
    unfold getNearbyStations, getFallbackStations. cbv zeta.
    rewrite filter_In, withinRadius_true. split; [exact Hin|].
    rewrite Hlat, Hlng.
    change (RealChargingStationService.calculateDistance
              (station_lat s) (station_lng s) (station_lat s) (station_lng s))
      with (DynamicRouteCalculationService.calculateDistance
              (station_lat s) (station_lng s) (station_lat s) (station_lng s)).
    rewrite calculateDistance_same_point. exact Hradius.
Qed.

(** C7, counterexample.  Kuwait is among the countries the service queries,
    but a lookup within the planner's 50 km of Kuwait City, with the live
    source unreachable, returns an empty list. *)
Lemma fallback_empty_in_kuwait_city :
  0 < 50
  /\ getNearbyStations None
       {| req_lat := 29.3759; req_lng := 47.9774; radiusKm := 50;
          req_connectorTypes := [CCS2] |} = [].
Proof.
  split; [lra|].
  unfold getNearbyStations, getFallbackStations. cbv zeta.
  apply filter_none. intros s Hin.
  destruct (withinRadius _ s) eqn:Hw; [|reflexivity].
  apply withinRadius_true in Hw. cbn [req_lat req_lng radiusKm] in Hw.
  assert (Hfar : 50 < RealChargingStationService.calculateDistance
                        29.3759 47.9774 (station_lat s) (station_lng s)).
  { apply calculateDistance_over_50; [lra| |];
      unfold fallbackStations in Hin; simpl in Hin;
      repeat (destruct Hin as [<- | Hin]; [simpl; lra|]);
      contradiction. }
  lra.
Qed.

(** * Further properties of the two services and their callers *)

(** ** The haversine distance *)

Lemma Math_atan2_quadrant (y x : R) :
  0 <= y -> 0 <= x -> 0 <= Math_atan2 y x <= PI / 2.
Proof.
  intros Hy Hx. pose proof PI_bounds as [Hpi _]. unfold Math_atan2.
  destruct (Rlt_dec 0 x) as [Hpos | Hnpos].
  - assert (Hq : 0 <= y / x).
    { unfold Rdiv. apply Rmult_le_pos; [exact Hy|].
      apply Rlt_le. now apply Rinv_0_lt_compat. }
    pose proof (atan_bound (y / x)) as [_ Hup].
    split; [|lra].
    destruct Hq as [Hq | <-]; [|rewrite atan_0; lra].
    rewrite <- atan_0. apply Rlt_le. now apply atan_increasing.
  - destruct (Rlt_dec x 0) as [Hneg | _]; [lra|].
    destruct (Rlt_dec 0 y) as [_ | Hny]; [lra|].
    destruct (Rlt_dec y 0) as [Hyneg | _]; lra.
Qed.

(** X2.  For latitudes between -90 and 90 degrees the haversine distance
    is symmetric in its two points, is not negative, and is at most half
    the circumference of the sphere of radius 6371 km. *)
Theorem calculateDistance_symmetric_and_bounded (lat1 lon1 lat2 lon2 : R) :
  -90 <= lat1 <= 90 ->
  -90 <= lat2 <= 90 ->
  DynamicRouteCalculationService.calculateDistance lat1 lon1 lat2 lon2
  = DynamicRouteCalculationService.calculateDistance lat2 lon2 lat1 lon1
  /\ 0 <= DynamicRouteCalculationService.calculateDistance lat1 lon1 lat2 lon2
     <= 6371 * PI.
Proof.
  intros H1 H2.
  unfold DynamicRouteCalculationService.calculateDistance,
    Math_sin, Math_cos, Math_sqrt, Math_PI. cbv zeta.
  replace ((lat1 - lat2) * PI / 180 / 2)
    with (- ((lat2 - lat1) * PI / 180 / 2)) by lra.
  replace ((lon1 - lon2) * PI / 180 / 2)
    with (- ((lon2 - lon1) * PI / 180 / 2)) by lra.
  rewrite !sin_neg.
  set (sa := sin ((lat2 - lat1) * PI / 180 / 2)).
  set (so := sin ((lon2 - lon1) * PI / 180 / 2)).
  set (c1 := cos (lat1 * PI / 180)). set (c2 := cos (lat2 * PI / 180)).
  replace (- sa * - sa + c2 * c1 * - so * - so)
    with (sa * sa + c1 * c2 * so * so) by ring.
  split; [reflexivity|].
  assert (Hc1 : 0 <= c1) by now apply cos_degrees_nonneg.
  assert (Hc2 : 0 <= c2) by now apply cos_degrees_nonneg.
  pose proof (Math_atan2_quadrant
                (sqrt (sa * sa + c1 * c2 * so * so))
                (sqrt (1 - (sa * sa + c1 * c2 * so * so)))
                (sqrt_pos _) (sqrt_pos _)) as [Hlo Hhi].
  lra.
Qed.

Lemma calculateDistance_symmetric_and_bounded_witness :
  DynamicRouteCalculationService.calculateDistance
    25.2048 55.2708 24.4539 54.3773
  = DynamicRouteCalculationService.calculateDistance
      24.4539 54.3773 25.2048 55.2708
  /\ 0 <= DynamicRouteCalculationService.calculateDistance
            25.2048 55.2708 24.4539 54.3773
     <= 6371 * PI.
Proof.
  apply calculateDistance_symmetric_and_bounded; lra.
Defined.

(** ** Weather *)

Lemma getWeatherMultiplier_wind (weather : WeatherData) (vehicle : EVModel) :
  getWeatherMultiplier weather vehicle
  = (if Rlt_dec (temperature weather) 0 then 1.0 + 0.3
     else if Rlt_dec (temperature weather) 10 then 1.0 + 0.15
     else if Rgt_dec (temperature weather) 35 then 1.0 + 0.1
     else 1.0)
    + Math_min 0.2 (windSpeed weather / 100).
Proof. reflexivity. Qed.

(** X3.  With a wind speed that is not negative the weather multiplier
    lies between 1 and 1.5; it is 1 exactly in calm air between 10 and
    35 degrees. *)
Theorem getWeatherMultiplier_range (weather : WeatherData) (vehicle : EVModel) :
  0 <= windSpeed weather ->
  1 <= getWeatherMultiplier weather vehicle <= 1.5
  /\ (getWeatherMultiplier weather vehicle = 1 <->
      10 <= temperature weather <= 35 /\ windSpeed weather = 0).
Proof.
  intros Hwind. rewrite getWeatherMultiplier_wind. unfold Math_min.
  assert (Hw : 0 <= Rmin 0.2 (windSpeed weather / 100) <= 0.2).
  { split; [apply Rmin_glb; lra | apply Rmin_l]. }
  assert (Hw0 : Rmin 0.2 (windSpeed weather / 100) = 0 <->
                windSpeed weather = 0).
  { unfold Rmin. destruct (Rle_dec 0.2 (windSpeed weather / 100)); lra. }
  destruct (Rlt_dec (temperature weather) 0);
    [|destruct (Rlt_dec (temperature weather) 10);
      [|destruct (Rgt_dec (temperature weather) 35)]];
    (split; [lra|]); split; intros H; lra.
Qed.

Lemma getWeatherMultiplier_range_witness :
  1 <= getWeatherMultiplier mildWeather (exampleVehicle 75) <= 1.5
  /\ (getWeatherMultiplier mildWeather (exampleVehicle 75) = 1 <->
      10 <= temperature mildWeather <= 35 /\ windSpeed mildWeather = 0).
Proof.
  apply getWeatherMultiplier_range. simpl. lra.
Defined.

(** X4.  The cold-weather penalty: for the same trip, vehicle and wind,
    the energy computed below 0 degrees is the energy computed between 10
    and 35 degrees scaled by (1.3 + w) / (1 + w), with w the wind term
    min(0.2, windSpeed / 100); it is at least 1.25 times the mild
    figure. *)
Theorem cold_weather_penalty
  (vehicle : EVModel) (d g : R) (cold mild : WeatherData) :
  0 <= efficiency vehicle ->
  0 <= mass vehicle ->
  0 <= dragCoefficient vehicle ->
  0 <= frontalArea vehicle ->
  0 <= d -> 0 <= g ->
  temperature cold < 0 ->
  10 <= temperature mild <= 35 ->
  0 <= windSpeed mild ->
  windSpeed cold = windSpeed mild ->
  let w := Math_min 0.2 (windSpeed mild / 100) in
  calculateEnergyConsumption d g vehicle cold * (1 + w)
  = calculateEnergyConsumption d g vehicle mild * (1.3 + w)
  /\ 1.25 * calculateEnergyConsumption d g vehicle mild
     <= calculateEnergyConsumption d g vehicle cold.
Proof.
  intros Heff Hmass Hcd Harea Hd Hg Hcold Hmild Hwind Hsame w.
  unfold calculateEnergyConsumption.
  rewrite !calculateAirResistanceImpact_linear, !getWeatherMultiplier_wind.
  rewrite Hsame. fold w.
  destruct (Rlt_dec (temperature cold) 0) as [_ | Hn]; [|contradiction].
  destruct (Rlt_dec (temperature mild) 0) as [Hlt | _]; [lra|].
  destruct (Rlt_dec (temperature mild) 10) as [Hlt | _]; [lra|].
  destruct (Rgt_dec (temperature mild) 35) as [Hgt | _]; [lra|].
  assert (Hw : 0 <= w <= 0.2).
  { unfold w, Math_min. split; [apply Rmin_glb; lra | apply Rmin_l]. }
  assert (Hca : 0 <= dragCoefficient vehicle * frontalArea vehicle)
    by now apply Rmult_le_pos.
  set (total := d * efficiency vehicle / 1000
                + g / 100 * (mass vehicle / 1000) * 0.1
                + dragCoefficient vehicle * frontalArea vehicle
                  * (49 / 5832) * d).
  assert (Htotal : 0 <= total).
  { unfold total.
    assert (0 <= d * efficiency vehicle) by now apply Rmult_le_pos.
    assert (0 <= g * mass vehicle) by now apply Rmult_le_pos.
    assert (0 <= dragCoefficient vehicle * frontalArea vehicle * d)
      by now apply Rmult_le_pos.
    lra. }
  unfold Math_max.
  rewrite !Rmax_right by (apply Rmult_le_pos; lra).
  split; [lra|]. nra.
Qed.

(** Scenario D: the same 140 km trip at -5 and at 25 degrees. *)
Lemma cold_weather_penalty_witness :
  let cold := {| temperature := -5; windSpeed := 10; condition := "Clear" |} in
  let w := Math_min 0.2 (windSpeed mildWeather / 100) in
  calculateEnergyConsumption 140 0 (exampleVehicle 75) cold * (1 + w)
  = calculateEnergyConsumption 140 0 (exampleVehicle 75) mildWeather * (1.3 + w)
  /\ 1.25 * calculateEnergyConsumption 140 0 (exampleVehicle 75) mildWeather
     <= calculateEnergyConsumption 140 0 (exampleVehicle 75) cold.
Proof.
  apply (cold_weather_penalty (exampleVehicle 75) 140 0
           {| temperature := -5; windSpeed := 10; condition := "Clear" |}
           mildWeather); simpl; lra.
Defined.

(** X5.  The weather-impact score is one of 0, -5, -10, -15, -20, -30 and
    -35: it never reaches either end of the clamp [-40, 10], and it is 0
    exactly between 10 and 35 degrees with wind of at most 30 km/h. *)
Theorem calculateWeatherImpact_values (weather : WeatherData) :
  calculateWeatherImpact weather
  = (if Rlt_dec (temperature weather) 0 then -30
     else if Rlt_dec (temperature weather) 10 then -15
     else if Rgt_dec (temperature weather) 35 then -10
     else 0)
    + (if Rgt_dec (windSpeed weather) 30 then -5 else 0)
  /\ -35 <= calculateWeatherImpact weather <= 0
  /\ (calculateWeatherImpact weather = 0 <->
      10 <= temperature weather <= 35 /\ windSpeed weather <= 30).
Proof.
  unfold calculateWeatherImpact, Math_max, Math_min. cbv zeta.
  destruct (Rlt_dec (temperature weather) 0);
    [|destruct (Rlt_dec (temperature weather) 10);
      [|destruct (Rgt_dec (temperature weather) 35)]];
    destruct (Rgt_dec (windSpeed weather) 30);
    match goal with
    | |- context [Rmin 10 ?x] =>
        rewrite (Rmin_right 10 x) by lra;
        rewrite (Rmax_right (-40) x) by lra
    end;
    (split; [lra|]); (split; [lra|]); split; intros H; lra.
Qed.

(** X6.  The estimated average speed always lies between 43.2 and 80 km/h,
    so the floor of 30 km/h is never the result and the duration of a leg
    divides by a positive speed. *)
Theorem estimateAverageSpeed_range (d : R) (weather : WeatherData) :
  43.2 <= estimateAverageSpeed d weather <= 80.
Proof.
  unfold estimateAverageSpeed, Math_max. cbv zeta.
  destruct (Rlt_dec d 50); [|destruct (Rlt_dec d 200)];
    destruct (orb _ _); destruct (Rgt_dec (windSpeed weather) 50);
    rewrite Rmax_right by lra; lra.
Qed.

(** ** Station selection: the best station *)

Lemma fold_best_first_max (rest : list ChargingStation) :
  forall first,
  exists pre post,
    first :: rest
    = pre ++ fold_left
               (fun best current =>
                  if Rgt_dec (scoreChargingStation current)
                             (scoreChargingStation best)
                  then current else best) rest first :: post
    /\ (forall s, In s pre ->
          scoreChargingStation s
          < scoreChargingStation
              (fold_left
                 (fun best current =>
                    if Rgt_dec (scoreChargingStation current)
                               (scoreChargingStation best)
                    then current else best) rest first))
    /\ (forall s, In s post ->
          scoreChargingStation s
          <= scoreChargingStation
               (fold_left
                  (fun best current =>
                     if Rgt_dec (scoreChargingStation current)
                                (scoreChargingStation best)
                     then current else best) rest first)).
Proof.
  induction rest as [|c rest IH]; intros first.
  - exists [], []. simpl. repeat split; intros s [].
  - simpl fold_left.
    destruct (Rgt_dec (scoreChargingStation c) (scoreChargingStation first))
      as [Hgt | Hle].
    + destruct (IH c) as (pre & post & Heq & Hpre & Hpost).
      exists (first :: pre), post. split; [simpl; now rewrite Heq|].
      split; [|exact Hpost].
      intros s [<- | Hin]; [|now apply Hpre].
      destruct pre as [|p pre].
      * simpl in Heq. injection Heq as Hc _. rewrite <- Hc. exact Hgt.
      * simpl in Heq. injection Heq as Hc _. subst p.
        specialize (Hpre c (or_introl eq_refl)). lra.
    + destruct (IH first) as (pre & post & Heq & Hpre & Hpost).
      destruct pre as [|p pre].
      * simpl in Heq. injection Heq as Hb Hrest.
        exists [], (c :: post). simpl.
        split; [now rewrite <- Hb, Hrest|].
        split; [intros s []|].
        intros s [<- | Hin]; [rewrite <- Hb; lra | now apply Hpost].
      * simpl in Heq. injection Heq as Hp Hrest. subst p.
        exists (first :: c :: pre), post.
        split; [simpl; do 2 f_equal; exact Hrest|].
        split; [|exact Hpost].
        intros s [<- | [<- | Hin]].
        -- apply Hpre. now left.
        -- specialize (Hpre first (or_introl eq_refl)). lra.
        -- apply Hpre. now right.
Qed.

Lemma filter_split {A : Type} (f : A -> bool) (xs : list A) :
  forall pre x post,
    filter f xs = pre ++ x :: post ->
    exists before after,
      xs = before ++ x :: after
      /\ filter f before = pre /\ filter f after = post /\ f x = true.
Proof.
  induction xs as [|y xs IH]; intros pre x post Heq; simpl in Heq.
  - destruct pre; discriminate.
  - destruct (f y) eqn:Hy.
    + destruct pre as [|p pre]; simpl in Heq.
      * injection Heq as -> Hrest.
        exists [], xs. simpl. repeat split; auto.
      * injection Heq as -> Hrest.
        destruct (IH _ _ _ Hrest) as (before & after & -> & Hb & Ha & Hx).
        exists (p :: before), after. simpl. rewrite Hy, Hb.
        repeat split; auto.
    + destruct (IH _ _ _ Heq) as (before & after & -> & Hb & Ha & Hx).
      exists (y :: before), after. simpl. rewrite Hy.
      repeat split; auto.
Qed.

(** X7.  [findBestChargingStation] answers with a station of the list that
    is available and shares a connector with the vehicle, whose score is
    the highest among such stations, the first of them in list order on a
    tie; it answers null exactly when no station of the list is
    eligible. *)
Theorem findBestChargingStation_first_best
  (stations : list ChargingStation) (vehicle : EVModel) :
  match findBestChargingStation stations vehicle with
  | Some best => firstBestOf vehicle stations best
  | None => forall s, In s stations -> isCompatible vehicle s = false
  end.
Proof.
  destruct (findBestChargingStation stations vehicle) as [best|] eqn:Hbest;
    [|now apply findBestChargingStation_None].
  unfold findBestChargingStation in Hbest.
  destruct (filter (isCompatible vehicle) stations) as [|first rest] eqn:Hf;
    [discriminate|].
  injection Hbest as Hbest.
  destruct (fold_best_first_max rest first) as (pre & post & Heq & Hpre & Hpost).
  rewrite Hbest in Heq, Hpre, Hpost. rewrite Heq in Hf.
  destruct (filter_split _ _ _ _ _ Hf) as (before & after & -> & Hb & Ha & Hx).
  exists before, after. split; [reflexivity|]. split; [exact Hx|]. split.
  - intros s Hin Hs. apply Hpre. rewrite <- Hb. apply filter_In. auto.
  - intros s Hin Hs. apply Hpost. rewrite <- Ha. apply filter_In. auto.
Qed.

(** ** The planner: runs without a stop, the buffer, the ceiling *)

Lemma planTrace_no_stop P vehicle segments :
  forall index st,
    Forall (fun segment => 0 <= socNeededFor vehicle segment) segments ->
    20 <= currentSOC st
          - fold_right Rplus 0 (map (socNeededFor vehicle) segments) ->
    stopsSoFar (planLoop P vehicle index st segments) = stopsSoFar st
    /\ map currentSOC (planTrace P vehicle index st segments)
       = drainedSOC (currentSOC st) (map (socNeededFor vehicle) segments).
Proof.
  induction segments as [|segment rest IH]; intros index st Hneeds Henough;
    cbn [planLoop planTrace map fold_right drainedSOC] in *;
    [split; reflexivity|].
  inversion Hneeds as [|? ? Hseg Hrest]; subst.
  assert (Hsum : 0 <= fold_right Rplus 0 (map (socNeededFor vehicle) rest)).
  { clear - Hrest. induction Hrest; simpl; lra. }
  rewrite (planSegment_enough P vehicle index st segment)
    by (unfold needsCharge; lra).
  destruct (IH (S index)
              {| stopsSoFar := stopsSoFar st;
                 currentSOC := currentSOC st - socNeededFor vehicle segment;
                 currentPosition :=
                   {| lat := endLat segment; lng := endLng segment |} |}
              Hrest) as [Hstops Htrace]; [cbn [currentSOC]; lra|].
  cbn [currentSOC stopsSoFar] in *. rewrite Hstops, Htrace.
  split; reflexivity.
Qed.

(** X8.  When the initial SOC covers every segment's need and still leaves
    21 points, one above the 20-point buffer so that no buffer test is
    decided by the last digit of the running subtraction, the planner
    returns no stop, whatever the directory would answer, and the SOC
    simply drains segment by segment. *)
Theorem no_stop_when_charge_suffices
  (P : Providers) (segments : list RouteSegment) (vehicle : EVModel)
  (initialSOC : R) :
  0 < batteryCapacity vehicle ->
  segments <> [] ->
  Forall (fun segment => 0 <= energyRequired segment) segments ->
  21 <= initialSOC - fold_right Rplus 0 (map (socNeededFor vehicle) segments) ->
  findOptimalChargingStops P segments vehicle initialSOC = Ok []
  /\ socTrajectory P segments vehicle initialSOC
     = Ok (drainedSOC initialSOC (map (socNeededFor vehicle) segments)).
Proof.
  intros Hcap Hne Henergy Henough.
  destruct segments as [|first rest]; [contradiction|].
  unfold findOptimalChargingStops, socTrajectory.
  simpl initialState. cbv [mapOutcome].
  assert (Hneeds : Forall (fun segment => 0 <= socNeededFor vehicle segment)
                          (first :: rest)).
  { apply Forall_impl with (2 := Henergy). intros s Hs.
    unfold socNeededFor, Rdiv.
    assert (0 < / batteryCapacity vehicle) by now apply Rinv_0_lt_compat.
    assert (0 <= energyRequired s * / batteryCapacity vehicle)
      by (apply Rmult_le_pos; lra).
    lra. }
  destruct (planTrace_no_stop P vehicle (first :: rest) 0
              {| stopsSoFar := [];
                 currentSOC := initialSOC;
                 currentPosition :=
                   {| lat := startLat first; lng := startLng first |} |}
              Hneeds) as [Hstops Htrace]; [cbn [currentSOC]; lra|].
  rewrite Hstops, Htrace. split; reflexivity.
Qed.

(** Scenario A: 75 % on board and a 21 kWh leg in a 75 kWh car. *)
Lemma no_stop_when_charge_suffices_witness :
  findOptimalChargingStops (exampleProviders 0 None)
    [exampleLeg 21] (exampleVehicle 75) 75 = Ok []
  /\ socTrajectory (exampleProviders 0 None)
       [exampleLeg 21] (exampleVehicle 75) 75
     = Ok (drainedSOC 75 (map (socNeededFor (exampleVehicle 75))
                              [exampleLeg 21])).
Proof.
  apply no_stop_when_charge_suffices.
  - simpl. lra.
  - discriminate.
  - constructor; [simpl; lra | constructor].
  - unfold socNeededFor. simpl. lra.
Defined.

Lemma planTrace_buffer P vehicle segments :
  forall index st,
    stationFoundWhenRequired P vehicle index st segments ->
    Forall (fun segment => socNeededFor vehicle segment <= 60) segments ->
    Forall (fun st' => 20 <= currentSOC st')
           (planTrace P vehicle index st segments).
Proof.
  induction segments as [|segment rest IH]; intros index st Hfound Hneed;
    simpl; [constructor|].
  destruct Hfound as [Hhere Hrest].
  inversion Hneed as [|? ? Hseg Hothers]; subst.
  constructor; [|now apply IH].
  destruct (planSegment_cases P vehicle index st segment)
    as [(best & _ & _ & Heq) | ([Hok | Hnone] & Heq)]; rewrite Heq; simpl.
  - lra.
  - unfold needsCharge in Hok. lra.
  - destruct (Rlt_dec (currentSOC st - socNeededFor vehicle segment) 20)
      as [Hlow | Hhigh]; [|lra].
    destruct (Hhere Hlow) as (s & Hin & Hs).
    destruct (lookupBestStation_found P vehicle index _ s Hin Hs) as [b Hb].
    congruence.
Qed.

(** X9.  The 20-point buffer is kept: if the directory holds an eligible
    station wherever the buffer test asks for a stop and no segment needs
    more than 60 % of the battery, the SOC is at least 20 at every segment
    boundary. *)
Theorem buffer_kept_when_stations_exist
  (P : Providers) (segments : list RouteSegment) (vehicle : EVModel)
  (initialSOC : R) :
  0 < batteryCapacity vehicle ->
  segments <> [] ->
  stationsAlwaysFound P segments vehicle initialSOC ->
  Forall (fun segment => socNeededFor vehicle segment <= 60) segments ->
  exists trajectory,
    socTrajectory P segments vehicle initialSOC = Ok trajectory
    /\ Forall (fun soc => 20 <= soc) trajectory.
Proof.
  intros _ Hne Hfound Hneed.
  destruct segments as [|first rest]; [contradiction|].
  unfold stationsAlwaysFound, socTrajectory in *.
  simpl initialState in *. cbv [mapOutcome].
  eexists. split; [reflexivity|].
  apply Forall_map. now apply planTrace_buffer.
Qed.

Lemma buffer_kept_when_stations_exist_witness :
  exists trajectory,
    socTrajectory (exampleProviders 0 (Some [exampleStation]))
      [exampleLeg 30] (exampleVehicle 75) 30 = Ok trajectory
    /\ Forall (fun soc => 20 <= soc) trajectory.
Proof.
  apply (buffer_kept_when_stations_exist
           (exampleProviders 0 (Some [exampleStation]))
           [exampleLeg 30] (exampleVehicle 75) 30).
  - simpl. lra.
  - discriminate.
  - apply single_leg_station_found.
  - constructor; [|constructor]. unfold socNeededFor. simpl. lra.
Defined.

Lemma planTrace_ceiling P vehicle segments :
  forall index st,
    Forall (fun segment => 0 <= socNeededFor vehicle segment) segments ->
    currentSOC st <= 100 ->
    Forall (fun st' => currentSOC st' <= 100)
           (planTrace P vehicle index st segments).
Proof.
  induction segments as [|segment rest IH]; intros index st Hneed Hsoc;
    simpl; [constructor|].
  inversion Hneed as [|? ? Hseg Hothers]; subst.
  assert (Hstep : currentSOC (planSegment P vehicle index st segment) <= 100).
  { destruct (planSegment_cases P vehicle index st segment)
      as [(best & _ & _ & Heq) | (_ & Heq)]; rewrite Heq; simpl; lra. }
  constructor; [exact Hstep | now apply IH].
Qed.

(** X10.  Starting at no more than 100 %, with segments of non-negative
    energy, the running SOC never exceeds 100 at a segment boundary. *)
Theorem soc_never_above_100
  (P : Providers) (segments : list RouteSegment) (vehicle : EVModel)
  (initialSOC : R) :
  0 < batteryCapacity vehicle ->
  segments <> [] ->
  initialSOC <= 100 ->
  Forall (fun segment => 0 <= energyRequired segment) segments ->
  exists trajectory,
    socTrajectory P segments vehicle initialSOC = Ok trajectory
    /\ Forall (fun soc => soc <= 100) trajectory.
Proof.
  intros Hcap Hne Hsoc Henergy.
  destruct segments as [|first rest]; [contradiction|].
  unfold socTrajectory. simpl initialState. cbv [mapOutcome].
  eexists. split; [reflexivity|].
  apply Forall_map. apply planTrace_ceiling; [|exact Hsoc].
  apply Forall_impl with (2 := Henergy). intros s Hs.
  unfold socNeededFor, Rdiv.
  assert (0 < / batteryCapacity vehicle) by now apply Rinv_0_lt_compat.
  assert (0 <= energyRequired s * / batteryCapacity vehicle)
    by (apply Rmult_le_pos; lra).
  lra.
Qed.

Lemma soc_never_above_100_witness :
  exists trajectory,
    socTrajectory (exampleProviders 0 (Some [exampleStation]))
      [exampleLeg 67.5] (exampleVehicle 75) 100 = Ok trajectory
    /\ Forall (fun soc => soc <= 100) trajectory.
Proof.
  apply (soc_never_above_100 (exampleProviders 0 (Some [exampleStation]))
           [exampleLeg 67.5] (exampleVehicle 75) 100).
  - simpl. lra.
  - discriminate.
  - lra.
  - constructor; [simpl; lra | constructor].
Defined.

(** ** The assembled plan *)

Lemma Math_round_idempotent (x : R) : Math_round (Math_round x) = Math_round x.
Proof. unfold Math_round at 2 3. apply Math_round_IZR. Qed.

Lemma Math_round_plus_rounded (a b : R) :
  Math_round (Math_round a + Math_round b) = Math_round a + Math_round b.
Proof.
  unfold Math_round at 2 3 4 5. rewrite <- plus_IZR. apply Math_round_IZR.
Qed.

Lemma single_segment_stops P vehicle segment soc stops :
  findOptimalChargingStops P [segment] vehicle soc = Ok stops ->
  stops = [] \/ exists best, stops = [chargingSession vehicle best soc].
Proof.
  rewrite findOptimalChargingStops_single.
  match goal with
  | |- context [planSegment ?P ?v ?i ?st ?seg] =>
      destruct (planSegment_cases P v i st seg)
        as [(best & _ & _ & Heq) | (_ & Heq)]; rewrite Heq
  end; cbn [stopsSoFar currentSOC app]; intros H; injection H as <-.
  - right. now exists best.
  - now left.
Qed.

Lemma calculateOptimalRoute_totals P start finish model soc
  weatherData weather :
  resolveWeather P start finish weatherData = Ok weather ->
  exists plan,
    calculateOptimalRoute P start finish model soc weatherData
    = Ok plan
    /\ segments plan
       = calculateRouteSegments start finish model
           (getElevationProfile P start finish) weather
    /\ findOptimalChargingStops P (segments plan) model soc
       = Ok (chargingStops plan)
    /\ totalDistance plan = Math_round (sumOf distance (segments plan))
    /\ totalDuration plan
       = Math_round (sumOf duration (segments plan)
                     + sumOf chargingTime (chargingStops plan))
    /\ totalEnergyUsed plan
       = Math_round (sumOf energyRequired (segments plan) * 10) / 10
    /\ weatherImpact plan = calculateWeatherImpact weather
    /\ place_lat (origin plan) = lat start
    /\ place_lng (origin plan) = lng start
    /\ place_lat (destination plan) = lat finish
    /\ place_lng (destination plan) = lng finish
    /\ vehicle plan = model
    /\ initialSOC plan = soc.
Proof.
  intros Hw. unfold calculateOptimalRoute. rewrite Hw.
  unfold calculateRouteSegments at 1.
  unfold findOptimalChargingStops at 1, initialState, mapOutcome. cbv zeta.
  eexists. split; [reflexivity|].
  cbn [segments chargingStops totalDistance totalDuration totalEnergyUsed
       weatherImpact origin destination place_lat place_lng vehicle
       initialSOC].
  repeat split.
Qed.

(** X11.  For points of valid latitude and a battery of positive
    capacity, the totals of a returned plan do not drift from its parts:
    the plan has one segment running from the origin to the destination,
    totalEnergyUsed is exactly that segment's energyRequired,
    totalDuration is exactly its duration plus the stops' charging times
    (which is also the sum of the driving and charging times the result
    card shows), and totalDistance is its distance rounded. *)
Theorem plan_totals_match_parts
  (P : Providers) (origin destination : RoutePoint) (vehicle : EVModel)
  (initialSOC : R) (weatherData : option WeatherData) (weather : WeatherData) :
  -90 <= lat origin <= 90 ->
  -90 <= lat destination <= 90 ->
  0 < batteryCapacity vehicle ->
  resolveWeather P origin destination weatherData = Ok weather ->
  exists plan segment,
    calculateOptimalRoute P origin destination vehicle initialSOC weatherData
    = Ok plan
    /\ segments plan = [segment]
    /\ startLat segment = lat origin /\ startLng segment = lng origin
    /\ endLat segment = lat destination /\ endLng segment = lng destination
    /\ totalEnergyUsed plan = energyRequired segment
    /\ totalDuration plan
       = duration segment + sumOf chargingTime (chargingStops plan)
    /\ RouteResultsComponent.drivingTime plan
       + RouteResultsComponent.chargingTimeTotal plan
       = totalDuration plan
    /\ totalDistance plan = Math_round (distance segment).
Proof.
  intros _ _ _ Hw.
  destruct (calculateOptimalRoute_totals P origin destination vehicle
              initialSOC weatherData weather Hw)
    as (plan & Hplan & Hsegs & Hstops & Hdist & Hdur & Hen & _).
  exists plan. eexists. split; [exact Hplan|].
  unfold calculateRouteSegments in Hsegs. cbv zeta in Hsegs.
  split; [exact Hsegs|].
  cbn [startLat startLng endLat endLng energyRequired duration distance].
  do 4 (split; [reflexivity|]).
  unfold RouteResultsComponent.drivingTime,
    RouteResultsComponent.chargingTimeTotal.
  rewrite Hsegs in Hstops, Hdist, Hdur, Hen |- *.
  rewrite sumOf_single in *.
  cbn [energyRequired duration distance] in *.
  assert (Hd : totalDuration plan
               = 0 + Math_round
                       (DynamicRouteCalculationService.calculateDistance
                          (lat origin) (lng origin)
                          (lat destination) (lng destination)
                        / estimateAverageSpeed
                            (DynamicRouteCalculationService.calculateDistance
                               (lat origin) (lng origin)
                               (lat destination) (lng destination)) weather
                        * 60)
                 + sumOf chargingTime (chargingStops plan)).
  { rewrite Hdur.
    destruct (single_segment_stops _ _ _ _ _ Hstops) as [-> | [best ->]].
    - rewrite sumOf_nil, Rplus_0_r, Rplus_0_l. apply Math_round_idempotent.
    - rewrite sumOf_single. unfold chargingSession. cbn [chargingTime].
      rewrite !Rplus_0_l. apply Math_round_plus_rounded. }
  split.
  - rewrite Hen.
    match goal with
    | |- Math_round ((0 + Math_round ?y / 10) * 10) / 10 = _ =>
        replace ((0 + Math_round y / 10) * 10) with (Math_round y) by lra;
        rewrite Math_round_idempotent; reflexivity
    end.
  - split; [rewrite Hd; lra|]. split; [rewrite Hd; lra|].
    rewrite Hdist. f_equal. lra.
Qed.

Lemma plan_totals_match_parts_witness :
  exists plan segment,
    calculateOptimalRoute (exampleProviders 0 (Some [exampleStation]))
      {| lat := 25.2048; lng := 55.2708 |} {| lat := 24.4539; lng := 54.3773 |}
      (exampleVehicle 75) 30 (Some mildWeather) = Ok plan
    /\ segments plan = [segment]
    /\ startLat segment = 25.2048 /\ startLng segment = 55.2708
    /\ endLat segment = 24.4539 /\ endLng segment = 54.3773
    /\ totalEnergyUsed plan = energyRequired segment
    /\ totalDuration plan
       = duration segment + sumOf chargingTime (chargingStops plan)
    /\ RouteResultsComponent.drivingTime plan
       + RouteResultsComponent.chargingTimeTotal plan
       = totalDuration plan
    /\ totalDistance plan = Math_round (distance segment).
Proof.
  apply (plan_totals_match_parts (exampleProviders 0 (Some [exampleStation]))
           {| lat := 25.2048; lng := 55.2708 |}
           {| lat := 24.4539; lng := 54.3773 |}
           (exampleVehicle 75) 30 (Some mildWeather) mildWeather);
    simpl; try lra.
  reflexivity.
Defined.

(** X12.  The result card's split of a time into hours and minutes adds up
    for every non-negative number of minutes, with the minutes below 60;
    a negative time between -60 and 0 is shown as -1 hour and the same
    negative minutes. *)
Theorem shown_time_split (minutes : R) :
  (0 <= minutes ->
   RouteResultsComponent.shownHours minutes * 60
   + RouteResultsComponent.shownMinutes minutes = minutes
   /\ 0 <= RouteResultsComponent.shownMinutes minutes < 60
   /\ 0 <= RouteResultsComponent.shownHours minutes)
  /\ (-60 < minutes < 0 ->
      RouteResultsComponent.shownHours minutes = -1
      /\ RouteResultsComponent.shownMinutes minutes = minutes).
Proof.
  unfold RouteResultsComponent.shownHours, RouteResultsComponent.shownMinutes,
    RouteResultsComponent.Math_floor, RouteResultsComponent.remainder.
  cbv zeta. split.
  - intros Hpos.
    destruct (Rle_dec 0 (minutes / 60)) as [_ | Hn]; [|lra].
    destruct (Zfloor_bound (minutes / 60)) as [Hlo Hhi].
    assert (Hf : (0 <= Zfloor (minutes / 60))%Z)
      by (apply Zfloor_lub; lra).
    apply IZR_le in Hf. lra.
  - intros [Hlo Hhi].
    destruct (Rle_dec 0 (minutes / 60)) as [Hq | _]; [lra|].
    rewrite (Zfloor_eq (-1) (minutes / 60)) by lra.
    rewrite (Zceil_eq 0 (minutes / 60)) by lra.
    lra.
Qed.

(** X13.  For points of valid latitude and a battery of positive
    capacity, the low-battery warning of the result card is shown for a
    returned plan exactly when the final SOC before rounding is below
    19.5. *)
Theorem lowFinalSOC_threshold
  (P : Providers) (origin destination : RoutePoint) (vehicle : EVModel)
  (initialSOC : R) (weatherData : option WeatherData) (weather : WeatherData) :
  -90 <= lat origin <= 90 ->
  -90 <= lat destination <= 90 ->
  0 < batteryCapacity vehicle ->
  resolveWeather P origin destination weatherData = Ok weather ->
  exists plan,
    calculateOptimalRoute P origin destination vehicle initialSOC weatherData
    = Ok plan
    /\ (RouteResultsComponent.lowFinalSOC plan = true <->
        finalSOCBeforeRounding initialSOC vehicle (segments plan)
                               (chargingStops plan) < 19.5).
Proof.
  intros _ _ _ Hw.
  destruct (calculateOptimalRoute_returns P origin destination vehicle
              initialSOC weatherData weather Hw)
    as (plan & Hplan & _ & _ & _ & Hfinal).
  exists plan. split; [exact Hplan|].
  unfold RouteResultsComponent.lowFinalSOC. rewrite Hfinal.
  set (x := finalSOCBeforeRounding initialSOC vehicle (segments plan)
                                   (chargingStops plan)).
  unfold Math_round.
  destruct (Zfloor_bound (x + / 2)) as [Hlo Hhi].
  destruct (Rlt_dec (IZR (Zfloor (x + / 2))) 20) as [Hlt | Hge].
  - split; [intros _|reflexivity].
    apply lt_IZR in Hlt.
    assert (Hle : (Zfloor (x + / 2) + 1 <= 20)%Z) by lia.
    apply IZR_le in Hle. rewrite plus_IZR in Hle. lra.
  - split; [discriminate|]. intros Hx. lra.
Qed.

Lemma lowFinalSOC_threshold_witness :
  exists plan,
    calculateOptimalRoute (exampleProviders 0 (Some [exampleStation]))
      {| lat := 25.2048; lng := 55.2708 |} {| lat := 24.4539; lng := 54.3773 |}
      (exampleVehicle 75) 30 (Some mildWeather) = Ok plan
    /\ (RouteResultsComponent.lowFinalSOC plan = true <->
        finalSOCBeforeRounding 30 (exampleVehicle 75) (segments plan)
                               (chargingStops plan) < 19.5).
Proof.
  apply (lowFinalSOC_threshold (exampleProviders 0 (Some [exampleStation]))
           {| lat := 25.2048; lng := 55.2708 |}
           {| lat := 24.4539; lng := 54.3773 |}
           (exampleVehicle 75) 30 (Some mildWeather) mildWeather);
    simpl; try lra.
  reflexivity.
Defined.

(** ** Elevation gain *)

Lemma last_cons {A : Type} (l : list A) :
  forall x d, last (x :: l) d = last l x.
Proof.
  induction l as [|c l IH]; intros x d; [reflexivity|].
  change (last (x :: c :: l) d) with (last (c :: l) d).
  now rewrite !IH.
Qed.

Lemma last_map {A B : Type} (f : A -> B) (l : list A) :
  forall d, last (map f l) (f d) = f (last l d).
Proof.
  induction l as [|c l IH]; intros d; [reflexivity|].
  change (map f (c :: l)) with (f c :: map f l).
  now rewrite !last_cons, IH.
Qed.

Lemma sumPositiveDeltas_telescope (rest : list R) :
  forall first,
    0 <= sumPositiveDeltas (first :: rest)
    /\ last rest first - first <= sumPositiveDeltas (first :: rest).
Proof.
  induction rest as [|b rest IH]; intros first; [simpl; lra|].
  destruct (IH b) as [Hpos Htel].
  change (sumPositiveDeltas (first :: b :: rest))
    with (Math_max 0 (b - first) + sumPositiveDeltas (b :: rest)).
  rewrite last_cons. unfold Math_max.
  pose proof (Rmax_l 0 (b - first)). pose proof (Rmax_r 0 (b - first)).
  lra.
Qed.

Lemma sumPositiveDeltas_descent (elevations : list R) :
  Sorted (fun a b => b <= a) elevations -> sumPositiveDeltas elevations = 0.
Proof.
  induction elevations as [|a rest IH]; intros Hsorted; [reflexivity|].
  destruct rest as [|b rest]; [reflexivity|].
  inversion Hsorted as [|? ? Hrest Hhead]; subst.
  inversion Hhead as [|? ? Hba]; subst.
  change (sumPositiveDeltas (a :: b :: rest))
    with (Math_max 0 (b - a) + sumPositiveDeltas (b :: rest)).
  rewrite (IH Hrest). unfold Math_max. rewrite Rmax_left by lra. lra.
Qed.

(** X14.  The elevation gain of a profile is a whole number and never
    negative; it is at least the net climb from the first to the last
    sample less the half metre the rounding can take; and it is 0 for a
    profile that never rises from one sample to the next, in particular
    for one with fewer than two samples. *)
Theorem calculateElevationGain_bounds (profile : list ElevationData) :
  0 <= calculateElevationGain profile
  /\ (exists n : Z, calculateElevationGain profile = IZR n)
  /\ (forall first rest,
        profile = first :: rest ->
        elevation (last rest first) - elevation first - / 2
        <= calculateElevationGain profile)
  /\ (Sorted (fun a b => b <= a) (map elevation profile) ->
      calculateElevationGain profile = 0)
  /\ ((List.length profile < 2)%nat -> calculateElevationGain profile = 0).
Proof.
  unfold calculateElevationGain. rewrite elevationGainLoop_sum.
  rewrite Rplus_0_l.
  split; [|split; [|split; [|split]]].
  - apply Math_round_nonneg.
    destruct profile as [|first rest]; [simpl; lra|].
    destruct (sumPositiveDeltas_telescope (map elevation rest) (elevation first)).
    simpl map. lra.
  - unfold Math_round. eexists. reflexivity.
  - intros first rest ->.
    destruct (sumPositiveDeltas_telescope (map elevation rest) (elevation first))
      as [_ Htel].
    rewrite last_map in Htel. simpl map.
    pose proof (Math_round_bounds
                  (sumPositiveDeltas (elevation first :: map elevation rest)))
      as [Hlow _].
    lra.
  - intros Hsorted. rewrite (sumPositiveDeltas_descent _ Hsorted).
    apply (Math_round_IZR 0).
  - intros Hshort.
    destruct profile as [|a [|b rest]]; simpl in Hshort; try lia;
      simpl; apply (Math_round_IZR 0).
Qed.

Lemma mapi_from_length {A B : Type} (f : A -> nat -> B) (xs : list A) :
  forall i, List.length (mapi_from f i xs) = List.length xs.
Proof.
  induction xs as [|x xs IH]; intros i; simpl; [reflexivity|].
  now rewrite IH.
Qed.

Lemma mapi_from_elevations origin destination (results : list (option R)) :
  forall i,
    map elevation
      (mapi_from
         (fun result index =>
            {| elevation := elevationOrZero result;
               distance_from_start :=
                 INR index *
                 (DynamicRouteCalculationService.calculateDistance
                    (lat origin) (lng origin) (lat destination) (lng destination)
                  / INR (List.length
                           (interpolateRoutePoints origin destination 10))) |})
         i results)
    = map elevationOrZero results.
Proof.
  induction results as [|r results IH]; intros i; simpl; [reflexivity|].
  now rewrite IH.
Qed.

(** X15.  When the elevation lookup answers, the profile has one sample
    per result, and the gain used for the leg is a whole number within one
    half of the sum of the positive consecutive deltas of the returned
    elevations, a result without elevation counting as 0; the positions
    of the samples play no part. *)
Theorem elevation_gain_from_results
  (P : Providers) (origin destination : RoutePoint)
  (results : list (option R)) :
  elevationApi P (interpolateRoutePoints origin destination 10) = Some results ->
  List.length (getElevationProfile P origin destination) = List.length results
  /\ map elevation (getElevationProfile P origin destination)
     = map elevationOrZero results
  /\ (exists n : Z,
        calculateElevationGain (getElevationProfile P origin destination)
        = IZR n)
  /\ Rabs (calculateElevationGain (getElevationProfile P origin destination)
           - sumPositiveDeltas (map elevationOrZero results)) <= / 2.
Proof.
  intros Hres.
  assert (Helev : map elevation (getElevationProfile P origin destination)
                  = map elevationOrZero results).
  { unfold getElevationProfile. cbv zeta. rewrite Hres.
    apply mapi_from_elevations. }
  split.
  { unfold getElevationProfile. cbv zeta. rewrite Hres.
    apply mapi_from_length. }
  split; [exact Helev|].
  unfold calculateElevationGain. rewrite elevationGainLoop_sum, Helev.
  rewrite Rplus_0_l.
  split; [unfold Math_round; eexists; reflexivity | apply Math_round_close].
Qed.

(** Three results 10, none, 12.6: the profile is 10, 0, 12.6 and the gain
    is within one half of 12.6. *)
Lemma elevation_gain_from_results_witness :
  List.length
    (getElevationProfile
       {| now := 0; elevationApi := fun _ => Some [Some 10; None; Some 12.6];
          weatherApi := fun _ _ => Ok mildWeather;
          stationApi := fun _ _ => None |}
       {| lat := 25.2048; lng := 55.2708 |} {| lat := 24.4539; lng := 54.3773 |})
  = 3%nat
  /\ map elevation
       (getElevationProfile
          {| now := 0; elevationApi := fun _ => Some [Some 10; None; Some 12.6];
             weatherApi := fun _ _ => Ok mildWeather;
             stationApi := fun _ _ => None |}
          {| lat := 25.2048; lng := 55.2708 |}
          {| lat := 24.4539; lng := 54.3773 |})
     = [10; 0; 12.6]
  /\ (exists n : Z,
        calculateElevationGain
          (getElevationProfile
             {| now := 0;
                elevationApi := fun _ => Some [Some 10; None; Some 12.6];
                weatherApi := fun _ _ => Ok mildWeather;
                stationApi := fun _ _ => None |}
             {| lat := 25.2048; lng := 55.2708 |}
             {| lat := 24.4539; lng := 54.3773 |})
        = IZR n)
  /\ Rabs (calculateElevationGain
             (getElevationProfile
                {| now := 0;
                   elevationApi := fun _ => Some [Some 10; None; Some 12.6];
                   weatherApi := fun _ _ => Ok mildWeather;
                   stationApi := fun _ _ => None |}
                {| lat := 25.2048; lng := 55.2708 |}
                {| lat := 24.4539; lng := 54.3773 |})
           - sumPositiveDeltas [10; 0; 12.6]) <= / 2.
Proof.
  apply (elevation_gain_from_results
           {| now := 0; elevationApi := fun _ => Some [Some 10; None; Some 12.6];
              weatherApi := fun _ _ => Ok mildWeather;
              stationApi := fun _ _ => None |}
           {| lat := 25.2048; lng := 55.2708 |}
           {| lat := 24.4539; lng := 54.3773 |}
           [Some 10; None; Some 12.6]).
  reflexivity.
Defined.

(** ** The live directory: what [transformStations] lets through *)

Lemma ConnectorType_eqb_eq (a b : ConnectorType) :
  ConnectorType_eqb a b = true <-> a = b.
Proof. destruct a, b; simpl; split; intros H; congruence. Qed.

Lemma existsb_eqb_In (t : ConnectorType) (types : list ConnectorType) :
  existsb (ConnectorType_eqb t) types = true <-> In t types.
Proof.
  rewrite existsb_exists. split.
  - intros (u & Hin & Heq). apply ConnectorType_eqb_eq in Heq. now subst.
  - intros Hin. exists t. split; [exact Hin|]. now apply ConnectorType_eqb_eq.
Qed.

Lemma addType_In (u t : ConnectorType) (types : list ConnectorType) :
  In t (addType u types) <-> In t types \/ t = u.
Proof.
  unfold addType.
  destruct (existsb (ConnectorType_eqb u) types) eqn:Hex.
  - apply existsb_eqb_In in Hex. split; [auto|].
    intros [H | ->]; assumption.
  - rewrite in_app_iff. simpl. intuition.
Qed.

Lemma addType_NoDup (u : ConnectorType) (types : list ConnectorType) :
  NoDup types -> NoDup (addType u types).
Proof.
  intros Hnd. unfold addType.
  destruct (existsb (ConnectorType_eqb u) types) eqn:Hex; [exact Hnd|].
  assert (Hnot : ~ In u types).
  { intros Hin. apply existsb_eqb_In in Hin. congruence. }
  clear Hex. induction Hnd as [|x l Hx Hnd IH]; simpl.
  - constructor; [intros []|constructor].
  - constructor.
    + rewrite in_app_iff. simpl. intros [H | [H | []]]; [contradiction|].
      apply Hnot. left. now symmetry.
    + apply IH. intros H. apply Hnot. now right.
Qed.

Lemma addConnectionTypes_NoDup types conn :
  NoDup types -> NoDup (addConnectionTypes types conn).
Proof.
  intros Hnd. unfold addConnectionTypes. cbv zeta.
  repeat match goal with
         | |- context [if ?b then _ else _] => destruct b
         end; repeat apply addType_NoDup; exact Hnd.
Qed.

Lemma addConnectionTypes_In t types conn :
  In t (addConnectionTypes types conn)
  <-> In t types \/ titleOffers t (ConnectionTypeTitle conn) = true.
Proof.
  unfold addConnectionTypes, titleOffers. cbv zeta.
  set (type := toLowerCase (ConnectionTypeTitle conn)).
  destruct (orb (includes type "ccs") (includes type "combo"));
    destruct (includes type "chademo");
    destruct (includes type "tesla");
    destruct (orb (includes type "type 2") (includes type "mennekes"));
    destruct (orb (includes type "gbt") (includes type "gb/t"));
    rewrite ?addType_In; destruct t;
    intuition (try discriminate; try congruence).
Qed.

Lemma mapConnectionTypes_fold connections :
  forall types t,
    NoDup types ->
    NoDup (fold_left addConnectionTypes connections types)
    /\ (In t (fold_left addConnectionTypes connections types)
        <-> In t types
            \/ exists conn, In conn connections
                            /\ titleOffers t (ConnectionTypeTitle conn) = true).
Proof.
  induction connections as [|conn rest IH]; intros types t Hnd; simpl.
  - split; [exact Hnd|]. split; [auto|]. intros [H | (c & [] & _)]. exact H.
  - destruct (IH (addConnectionTypes types conn) t
                (addConnectionTypes_NoDup types conn Hnd)) as [Hnd' Hin].
    split; [exact Hnd'|]. rewrite Hin, addConnectionTypes_In. split.
    + intros [[H | H] | (c & Hc & Ht)]; [now left | |].
      * right. exists conn. auto.
      * right. exists c. auto.
    + intros [H | (c & [<- | Hc] & Ht)]; [now left; left | now left; right |].
      right. exists c. auto.
Qed.

(** X16.  The connector types computed for a station contain no
    duplicate, and a type is among them exactly when the title of one of
    the station's connections mentions it (in any letter case). *)
Theorem mapConnectionTypes_set (connections : list OcmConnection) :
  NoDup (mapConnectionTypes connections)
  /\ forall t,
      In t (mapConnectionTypes connections)
      <-> exists conn, In conn connections
                       /\ titleOffers t (ConnectionTypeTitle conn) = true.
Proof.
  unfold mapConnectionTypes. split.
  - apply (mapConnectionTypes_fold connections [] CCS2). constructor.
  - intros t.
    destruct (mapConnectionTypes_fold connections [] t (NoDup_nil _))
      as [_ Hin].
    rewrite Hin. split; [|auto]. intros [[] | H]. exact H.
Qed.

(** [inferAmenities] never returns an empty list: it returns between 2
    and 13 entries. *)
Lemma inferAmenities_size (title town : string) :
  (2 <= List.length (inferAmenities title town) <= 13)%nat.
Proof.
  unfold inferAmenities. cbv zeta.
  destruct (orb (includes (toLowerCase title) "mall")
                (includes (toLowerCase title) "shopping"));
    destruct (orb (includes (toLowerCase title) "hotel")
                  (includes (toLowerCase title) "resort"));
    destruct (includes (toLowerCase title) "airport");
    destruct (orb (includes (toLowerCase title) "metro")
                  (includes (toLowerCase title) "station"));
    destruct (orb (includes (toLowerCase town) "dubai")
                  (includes (toLowerCase town) "abu dhabi"));
    simpl; lia.
Qed.

Lemma basePrices_range (countryCode : string) :
  match basePrices countryCode with
  | Some price => 0.15 <= price <= 0.31
  | None => True
  end.
Proof.
  unfold basePrices.
  repeat match goal with
         | |- context [if ?b then _ else _] => destruct b
         end; cbv beta iota; try exact I; lra.
Qed.

(** X17.  For a two-letter country code the estimated price per kWh lies
    between 0.15 and 0.37, and the price above 100 kW is never below the
    price at or under 100 kW. *)
Theorem estimateCostPerKwh_range (countryCode : string) (slow fast : R) :
  String.length countryCode = 2%nat ->
  slow <= 100 < fast ->
  0.15 <= estimateCostPerKwh countryCode slow
  /\ estimateCostPerKwh countryCode slow <= estimateCostPerKwh countryCode fast
  /\ estimateCostPerKwh countryCode fast <= 0.37.
Proof.
  intros _ [Hslow Hfast]. unfold estimateCostPerKwh. cbv zeta.
  destruct (Rgt_dec slow 100) as [H | _]; [lra|].
  destruct (Rgt_dec fast 100) as [_ | H]; [|lra].
  set (basePrice := match basePrices countryCode with
                    | Some price => numberOr price 0.30
                    | None => 0.30
                    end).
  assert (Hbase : 0.15 <= basePrice <= 0.31).
  { unfold basePrice. pose proof (basePrices_range countryCode) as Hr.
    destruct (basePrices countryCode) as [price|]; [|lra].
    unfold numberOr. destruct (Req_dec_T price 0); lra. }
  pose proof (Math_round_le 15 (basePrice * 1.0 * 100)) as H1.
  pose proof (Math_round_le (basePrice * 1.0 * 100)
                            (basePrice * 1.2 * 100)) as H2.
  pose proof (Math_round_le (basePrice * 1.2 * 100) 37.2) as H3.
  rewrite (Math_round_eq 15 15) in H1 by lra.
  rewrite (Math_round_eq 37 37.2) in H3 by lra.
  lra.
Qed.

Lemma estimateCostPerKwh_range_witness :
  0.15 <= estimateCostPerKwh "AE" 50
  /\ estimateCostPerKwh "AE" 50 <= estimateCostPerKwh "AE" 150
  /\ estimateCostPerKwh "AE" 150 <= 0.37.
Proof.
  apply estimateCostPerKwh_range; [reflexivity | lra].
Defined.

Lemma filterMap_In {A B : Type} (f : A -> option B) (xs : list A) (y : B) :
  In y (filterMap f xs) <-> exists x, In x xs /\ f x = Some y.
Proof.
  induction xs as [|x xs IH]; simpl.
  - split; [intros [] | intros (x & [] & _)].
  - destruct (f x) as [z|] eqn:Hfx; simpl; rewrite IH; split.
    + intros [<- | (x' & Hin & Hx')]; [exists x; auto | exists x'; auto].
    + intros (x' & [<- | Hin] & Hx'); [left; congruence | right; exists x'; auto].
    + intros (x' & Hin & Hx'). exists x'; auto.
    + intros (x' & [<- | Hin] & Hx'); [congruence | exists x'; auto].
Qed.

Lemma transformStations_In (data : list OpenChargeMapStation)
  (s : ChargingStation) :
  In s (transformStations data)
  <-> 0 < maxPower s
      /\ exists raw, In raw data /\ transformStation raw = Some s.
Proof.
  unfold transformStations. rewrite filter_In, filterMap_In.
  destruct (Rgt_dec (maxPower s) 0) as [Hpos | Hneg]; split;
    intros [H1 H2]; try discriminate; try (split; [lra | assumption]);
    try (split; [assumption | reflexivity]).
  exfalso. apply Hneg. exact H1.
Qed.

(** X18.  Every station that [transformStations] returns comes from an
    entry of the answer that has an address and at least one connection;
    it carries that entry's coordinates, is unavailable only if the entry
    says it is not operational, has a whole number of at least 1 kW as
    maxPower, a numberOfPorts other than 0, duplicate-free connector
    types and between 2 and 13 amenities. *)
Theorem transformStations_output
  (data : list OpenChargeMapStation) (s : ChargingStation) :
  In s (transformStations data) ->
  (exists raw addressInfo connection others,
      In raw data
      /\ AddressInfo raw = Some addressInfo
      /\ Connections raw = Some (connection :: others)
      /\ station_lat s = Latitude addressInfo
      /\ station_lng s = Longitude addressInfo
      /\ (isAvailable s = false <-> IsOperational raw = Some false))
  /\ (exists z, maxPower s = IZR z /\ (1 <= z)%Z)
  /\ numberOfPorts s <> 0
  /\ NoDup (connectorTypes s)
  /\ (2 <= List.length (amenities s) <= 13)%nat.
Proof.
  intros Hin. apply transformStations_In in Hin.
  destruct Hin as (Hpos & raw & Hraw & Ht).
  unfold transformStation in Ht.
  destruct (AddressInfo raw) as [addressInfo|] eqn:Ha; [|discriminate].
  destruct (Connections raw) as [[|connection others]|] eqn:Hc;
    try discriminate.
  injection Ht as <-. cbn in *. split; [|split; [|split; [|split]]].
  - exists raw, addressInfo, connection, others.
    repeat split; auto.
    + destruct (IsOperational raw) as [[|]|]; congruence.
    + intros ->. reflexivity.
  - unfold Math_round in *. eexists. split; [reflexivity|].
    apply lt_IZR in Hpos. lia.
  - unfold numberOr. destruct (Req_dec_T (NumberOfPoints raw) 0); lra.
  - apply (proj1 (mapConnectionTypes_fold (connection :: others) [] CCS2
                    (NoDup_nil _))).
  - apply inferAmenities_size.
Qed.

Lemma estimatePowerFromConnection_default (connection : OcmConnection) :
  Voltage connection = 0 \/ Amps connection = 0 ->
  estimatePowerFromConnection connection = 150
  \/ estimatePowerFromConnection connection = 100
  \/ estimatePowerFromConnection connection = 250
  \/ estimatePowerFromConnection connection = 22
  \/ estimatePowerFromConnection connection = 50.
Proof.
  intros Hmissing. unfold estimatePowerFromConnection. cbv zeta.
  assert (Hcond : andb (if Req_dec_T (Voltage connection) 0 then false else true)
                       (if Req_dec_T (Amps connection) 0 then false else true)
                  = false).
  { destruct (Req_dec_T (Voltage connection) 0);
      destruct (Req_dec_T (Amps connection) 0); simpl; auto.
    destruct Hmissing; contradiction. }
  rewrite Hcond.
  destruct (orb _ _); [auto|].
  destruct (includes _ "chademo"); [auto|].
  destruct (includes _ "tesla"); [auto|].
  destruct (includes _ "type 2"); auto 6.
Qed.

(** X19.  An entry with an address whose first connection reports neither
    a power nor both voltage and amperage is not dropped for lack of power
    information: it is returned with the default power of its connection
    type, one of 150, 100, 250, 22 and 50 kW. *)
Theorem station_without_power_info_kept
  (data : list OpenChargeMapStation) (raw : OpenChargeMapStation)
  (addressInfo : OcmAddressInfo) (connection : OcmConnection)
  (others : list OcmConnection) :
  In raw data ->
  AddressInfo raw = Some addressInfo ->
  Connections raw = Some (connection :: others) ->
  PowerKW connection = 0 ->
  Voltage connection = 0 \/ Amps connection = 0 ->
  exists s,
    transformStation raw = Some s
    /\ In s (transformStations data)
    /\ maxPower s = estimatePowerFromConnection connection
    /\ (maxPower s = 150 \/ maxPower s = 100 \/ maxPower s = 250
        \/ maxPower s = 22 \/ maxPower s = 50).
Proof.
  intros Hraw Ha Hc Hpower Hmissing.
  pose proof (estimatePowerFromConnection_default connection Hmissing) as Hd.
  assert (Hmax : Math_round (numberOr (PowerKW connection)
                                      (estimatePowerFromConnection connection))
                 = estimatePowerFromConnection connection).
  { unfold numberOr. rewrite Hpower.
    destruct (Req_dec_T 0 0) as [_ | Hn]; [|contradiction].
    destruct Hd as [-> | [-> | [-> | [-> | ->]]]]; apply Math_round_IZR. }
  unfold transformStation. rewrite Ha, Hc. eexists.
  split; [reflexivity|]. split; [|split].
  - apply transformStations_In. cbn [maxPower]. split.
    + rewrite Hmax. destruct Hd as [-> | [-> | [-> | [-> | ->]]]]; lra.
    + exists raw. split; [exact Hraw|].
      unfold transformStation. rewrite Ha, Hc. reflexivity.
  - cbn [maxPower]. exact Hmax.
  - cbn [maxPower]. rewrite Hmax. exact Hd.
Qed.

Lemma station_without_power_info_kept_witness :
  let connection := {| ConnectionTypeID := 33;
                       ConnectionTypeTitle := "CCS (Type 2)";
                       PowerKW := 0; Voltage := 0; Amps := 0 |} in
  let addressInfo := {| Title := "Dubai Mall"; AddressLine1 := "";
                        Town := "Dubai"; StateOrProvince := "";
                        CountryTitle := "United Arab Emirates";
                        CountryISOCode := "AE";
                        Latitude := 25.1972; Longitude := 55.2744 |} in
  let raw := {| ID := 1001; UUID := ""; AddressInfo := Some addressInfo;
                Connections := Some [connection];
                OperatorTitle := None; IsOperational := None;
                UsageTitle := None; NumberOfPoints := 0 |} in
  exists s,
    transformStation raw = Some s
    /\ In s (transformStations [raw])
    /\ maxPower s = estimatePowerFromConnection connection
    /\ (maxPower s = 150 \/ maxPower s = 100 \/ maxPower s = 250
        \/ maxPower s = 22 \/ maxPower s = 50).
Proof.
  intros connection addressInfo raw.
  apply (station_without_power_info_kept [raw] raw addressInfo connection []).
  - now left.
  - reflexivity.
  - reflexivity.
  - reflexivity.
  - now left.
Defined.

(** ** The planner over the real directory *)

Lemma fallbackStations_facts (s : ChargingStation) :
  In s fallbackStations ->
  100 <= maxPower s /\ isAvailable s = true /\ In CCS2 (connectorTypes s).
Proof.
  unfold fallbackStations. simpl.
  intros H.
  repeat (destruct H as [<- | H];
          [simpl; split; [lra | split; [reflexivity | tauto]]|]).
  contradiction.
Qed.

Lemma transformStations_maxPower data s :
  In s (transformStations data) -> 1 <= maxPower s.
Proof.
  intros Hin. apply transformStations_In in Hin.
  destruct Hin as (Hpos & raw & _ & Ht).
  unfold transformStation in Ht.
  destruct (AddressInfo raw); [|discriminate].
  destruct (Connections raw) as [[|c cs]|]; try discriminate.
  injection Ht as <-. cbn [maxPower] in *. unfold Math_round in *.
  apply lt_IZR in Hpos. apply IZR_le. lia.
Qed.

Lemma nearbyStationsAt_power P vehicle index position s :
  answersAreTransformed P ->
  In s (nearbyStationsAt P vehicle index position) ->
  1 <= maxPower s.
Proof.
  intros Hanswers. unfold nearbyStationsAt, getNearbyStations.
  destruct (Hanswers index (stationRequest vehicle position))
    as [-> | [data ->]].
  - unfold getFallbackStations. cbv zeta. rewrite filter_In.
    intros [Hin _]. apply fallbackStations_facts in Hin. lra.
  - apply transformStations_maxPower.
Qed.

Lemma planLoop_stops_station P vehicle segments :
  forall index st stop,
    In stop (stopsSoFar (planLoop P vehicle index st segments)) ->
    In stop (stopsSoFar st)
    \/ exists i position,
        In (station stop) (nearbyStationsAt P vehicle i position).
Proof.
  induction segments as [|segment rest IH]; intros index st stop Hin;
    simpl in *; [now left|].
  destruct (IH _ _ _ Hin) as [Hold | Hnew]; [|now right].
  destruct (planSegment_cases P vehicle index st segment)
    as [(best & _ & Hbest & Hstep) | (_ & Hstep)];
    rewrite Hstep in Hold; simpl in Hold; [|now left].
  apply in_app_or in Hold. destruct Hold as [Hold | [Hnew | []]];
    [now left|]. right. subst stop.
  apply findBestChargingStation_Some in Hbest.
  exists index, (currentPosition st). apply Hbest.
Qed.

(** X20.  When every directory answer is an output of [transformStations]
    or the curated fallback table, and the vehicle's maximum charging
    speed is positive, every stop the planner returns is charged at a
    positive power: the charging time never divides by zero. *)
Theorem charging_power_positive
  (P : Providers) (segments : list RouteSegment) (vehicle : EVModel)
  (initialSOC : R) (stops : list ChargingStop) (stop : ChargingStop) :
  answersAreTransformed P ->
  0 < maxChargingSpeed vehicle ->
  findOptimalChargingStops P segments vehicle initialSOC = Ok stops ->
  In stop stops ->
  1 <= maxPower (station stop)
  /\ 0 < Math_min (maxPower (station stop)) (maxChargingSpeed vehicle).
Proof.
  intros Hanswers Hspeed. unfold findOptimalChargingStops.
  destruct (initialState segments initialSOC) as [st0|] eqn:Hinit;
    cbv [mapOutcome]; [|discriminate].
  apply initialState_Ok in Hinit. destruct Hinit as [Hempty _].
  intros Hstops Hin. injection Hstops as <-.
  apply planLoop_stops_station in Hin. rewrite Hempty in Hin.
  destruct Hin as [[] | (i & position & Hnear)].
  pose proof (nearbyStationsAt_power P vehicle i position _ Hanswers Hnear)
    as Hpower.
  split; [exact Hpower|]. unfold Math_min. apply Rmin_glb_lt; lra.
Qed.

Lemma single_segment_charge P vehicle segment soc best :
  soc - socNeededFor vehicle segment < 20 ->
  lookupBestStation P vehicle 0
    {| lat := startLat segment; lng := startLng segment |} = Some best ->
  findOptimalChargingStops P [segment] vehicle soc
  = Ok [chargingSession vehicle best soc].
Proof.
  intros Hlow Hbest. rewrite findOptimalChargingStops_single.
  rewrite (planSegment_charge P vehicle 0 _ segment best);
    [reflexivity | exact Hlow | exact Hbest].
Qed.

(** The example entry passes [transformStations] with its 50 kW. *)
Lemma transformStations_example :
  exists s,
    transformStations [exampleRawStation] = [s]
    /\ isCompatible (exampleVehicle 75) s = true.
Proof.
  assert (Hs : exists s,
             transformStation exampleRawStation = Some s
             /\ maxPower s
                = Math_round
                    (numberOr (PowerKW exampleConnection)
                       (estimatePowerFromConnection exampleConnection))
             /\ isCompatible (exampleVehicle 75) s = true).
  { eexists. split; [reflexivity|]. split; reflexivity. }
  destruct Hs as (s & Hs & Hmax & Hc).
  exists s. split; [|exact Hc].
  unfold transformStations. cbn [filterMap]. rewrite Hs. cbn [filter].
  rewrite Hmax. unfold numberOr. cbn [PowerKW exampleConnection].
  destruct (Req_dec_T 50 0) as [H | _]; [lra|].
  rewrite (Math_round_IZR 50).
  destruct (Rgt_dec 50 0) as [_ | H]; [reflexivity | lra].
Qed.

Lemma charging_power_positive_witness :
  exists stop,
    findOptimalChargingStops (liveProviders [exampleRawStation])
      [exampleLeg 30] (exampleVehicle 75) 30 = Ok [stop]
    /\ 1 <= maxPower (station stop)
    /\ 0 < Math_min (maxPower (station stop))
                    (maxChargingSpeed (exampleVehicle 75)).
Proof.
  destruct transformStations_example as (s & Hlive & Hs).
  assert (Hbest : lookupBestStation (liveProviders [exampleRawStation])
                    (exampleVehicle 75) 0
                    {| lat := startLat (exampleLeg 30);
                       lng := startLng (exampleLeg 30) |} = Some s).
  { unfold lookupBestStation, nearbyStationsAt, getNearbyStations,
      liveProviders. cbn [stationApi]. rewrite Hlive.
    unfold findBestChargingStation. cbn [filter]. rewrite Hs. reflexivity. }
  assert (Hrun : findOptimalChargingStops (liveProviders [exampleRawStation])
                   [exampleLeg 30] (exampleVehicle 75) 30
                 = Ok [chargingSession (exampleVehicle 75) s 30]).
  { apply single_segment_charge; [|exact Hbest].
    unfold socNeededFor. simpl. lra. }
  exists (chargingSession (exampleVehicle 75) s 30).
  split; [exact Hrun|].
  apply (charging_power_positive (liveProviders [exampleRawStation])
           [exampleLeg 30] (exampleVehicle 75) 30
           [chargingSession (exampleVehicle 75) s 30]).
  - intros index request. right. now exists [exampleRawStation].
  - simpl. lra.
  - exact Hrun.
  - now left.
Defined.

Lemma fallbackStations_compatible (vehicle : EVModel) (s : ChargingStation) :
  In CCS2 (map port_type (chargingPorts vehicle)) ->
  In s fallbackStations ->
  isCompatible vehicle s = true.
Proof.
  intros Hport Hin. apply fallbackStations_facts in Hin.
  destruct Hin as (_ & Havailable & Hccs).
  unfold isCompatible. cbv zeta. rewrite Havailable. simpl andb.
  apply existsb_exists. exists CCS2. split; [exact Hccs|].
  apply existsb_exists. apply in_map_iff in Hport.
  destruct Hport as (port & Htype & Hport).
  exists port. split; [exact Hport|]. rewrite Htype. reflexivity.
Qed.

(** X21.  With the live source down, a vehicle that has a CCS2 port is
    offered a station at a lookup exactly when some entry of the fallback
    table lies within 50 km of the position; the station chosen is then
    such an entry. *)
Theorem fallback_serves_ccs2_vehicles
  (P : Providers) (vehicle : EVModel) (index : nat) (position : RoutePoint) :
  stationApi P index (stationRequest vehicle position) = None ->
  In CCS2 (map port_type (chargingPorts vehicle)) ->
  (lookupBestStation P vehicle index position = None
   <-> getFallbackStations (stationRequest vehicle position) = [])
  /\ forall best,
      lookupBestStation P vehicle index position = Some best ->
      In best fallbackStations
      /\ RealChargingStationService.calculateDistance
           (lat position) (lng position) (station_lat best) (station_lng best)
         <= 50.
Proof.
  intros Hdown Hport.
  assert (Hnear : nearbyStationsAt P vehicle index position
                  = getFallbackStations (stationRequest vehicle position)).
  { unfold nearbyStationsAt, getNearbyStations. now rewrite Hdown. }
  split.
  - rewrite lookupBestStation_None, Hnear. split.
    + intros Hnone.
      destruct (getFallbackStations (stationRequest vehicle position))
        as [|s rest] eqn:Hf; [reflexivity|].
      assert (Hin : In s fallbackStations).
      { assert (Hs : In s (getFallbackStations
                             (stationRequest vehicle position)))
          by (rewrite Hf; now left).
        unfold getFallbackStations in Hs. cbv zeta in Hs.
        apply filter_In in Hs. apply Hs. }
      specialize (Hnone s (or_introl eq_refl)).
      rewrite (fallbackStations_compatible vehicle s Hport Hin) in Hnone.
      discriminate.
    + intros -> s [].
  - intros best Hbest. unfold lookupBestStation in Hbest. cbv zeta in Hbest.
    apply findBestChargingStation_Some in Hbest. destruct Hbest as [Hin _].
    rewrite Hnear in Hin. unfold getFallbackStations in Hin. cbv zeta in Hin.
    apply filter_In in Hin. destruct Hin as [Hin Hw].
    split; [exact Hin|]. apply withinRadius_true in Hw. exact Hw.
Qed.

Lemma fallback_serves_ccs2_vehicles_witness :
  (lookupBestStation (exampleProviders 0 None) (exampleVehicle 75) 0
     {| lat := 29.3759; lng := 47.9774 |} = None
   <-> getFallbackStations
         (stationRequest (exampleVehicle 75)
                         {| lat := 29.3759; lng := 47.9774 |}) = [])
  /\ forall best,
      lookupBestStation (exampleProviders 0 None) (exampleVehicle 75) 0
        {| lat := 29.3759; lng := 47.9774 |} = Some best ->
      In best fallbackStations
      /\ RealChargingStationService.calculateDistance
           29.3759 47.9774 (station_lat best) (station_lng best) <= 50.
Proof.
  apply (fallback_serves_ccs2_vehicles (exampleProviders 0 None)
           (exampleVehicle 75) 0 {| lat := 29.3759; lng := 47.9774 |}).
  - reflexivity.
  - simpl. now left.
Defined.

(** ** The route planner form *)




Lemma transformStations_output_witness :
  exists s,
    transformStations [exampleRawStation] = [s]
    /\ (exists raw addressInfo connection others,
           In raw [exampleRawStation]
           /\ AddressInfo raw = Some addressInfo
           /\ Connections raw = Some (connection :: others)
           /\ station_lat s = Latitude addressInfo
           /\ station_lng s = Longitude addressInfo
           /\ (isAvailable s = false <-> IsOperational raw = Some false))
    /\ (exists z, maxPower s = IZR z /\ (1 <= z)%Z)
    /\ numberOfPorts s <> 0
    /\ NoDup (connectorTypes s)
    /\ (2 <= List.length (amenities s) <= 13)%nat.
Proof.
  destruct transformStations_example as (s & Hlive & _).
  exists s. split; [exact Hlive|].
  apply (transformStations_output [exampleRawStation] s).
  rewrite Hlive. now left.
Defined.

(** ** The route segment *)

Lemma calculateDistance_nonneg (lat1 lon1 lat2 lon2 : R) :
  0 <= DynamicRouteCalculationService.calculateDistance lat1 lon1 lat2 lon2.
Proof.
  unfold DynamicRouteCalculationService.calculateDistance, Math_sqrt.
  cbv zeta.
  match goal with
  | |- 0 <= 6371 * (2 * Math_atan2 (sqrt ?a) (sqrt ?b)) =>
      pose proof (Math_atan2_quadrant (sqrt a) (sqrt b)
                    (sqrt_pos _) (sqrt_pos _)) as [Hlo _]
  end.
  lra.
Qed.

Lemma estimateAverageSpeed_positive (d : R) (weather : WeatherData) :
  30 <= estimateAverageSpeed d weather.
Proof. unfold estimateAverageSpeed, Math_max. apply Rmax_l. Qed.

(** X23.  The segment built for a trip between points of valid latitude
    is well formed: its distance,
    duration, elevation gain and energy are all non-negative, its
    duration and elevation gain are whole numbers, and its energy is a
    whole number of tenths of a kWh. *)
Theorem route_segment_well_formed
  (start finish : RoutePoint) (model : EVModel)
  (profile : list ElevationData) (weather : WeatherData) :
  -90 <= lat start <= 90 ->
  -90 <= lat finish <= 90 ->
  exists segment,
    calculateRouteSegments start finish model profile weather = [segment]
    /\ 0 <= distance segment
    /\ 0 <= duration segment
    /\ 0 <= elevationGain segment
    /\ 0 <= energyRequired segment
    /\ (exists minutes metres tenths,
           duration segment = IZR minutes
           /\ elevationGain segment = IZR metres
           /\ energyRequired segment * 10 = IZR tenths).
Proof.
  intros _ _. unfold calculateRouteSegments. cbv zeta. eexists.
  split; [reflexivity|].
  cbn [distance duration elevationGain energyRequired].
  pose proof (calculateDistance_nonneg (lat start) (lng start)
                (lat finish) (lng finish)) as Hd.
  set (d := DynamicRouteCalculationService.calculateDistance
              (lat start) (lng start) (lat finish) (lng finish)) in *.
  pose proof (estimateAverageSpeed_positive d weather) as Hv.
  split; [exact Hd|]. split; [|split; [|split]].
  - apply Math_round_nonneg.
    apply Rmult_le_pos; [|lra]. unfold Rdiv.
    apply Rmult_le_pos; [exact Hd|].
    apply Rlt_le, Rinv_0_lt_compat. lra.
  - unfold calculateElevationGain. rewrite elevationGainLoop_sum.
    apply Math_round_nonneg.
    destruct profile as [|first rest]; [simpl; lra|].
    destruct (sumPositiveDeltas_telescope (map elevation rest)
                (elevation first)).
    simpl map. lra.
  - pose proof (calculateEnergyConsumption_nonneg d
                  (calculateElevationGain profile) model weather) as He.
    match goal with
    | |- 0 <= Math_round ?x / 10 =>
        assert (0 <= Math_round x) by (apply Math_round_nonneg; lra); lra
    end.
  - unfold calculateElevationGain, Math_round.
    eexists. eexists. eexists.
    split; [reflexivity|]. split; [reflexivity|].
    unfold Rdiv. rewrite Rmult_assoc, Rinv_l by lra.
    rewrite Rmult_1_r. reflexivity.
Qed.

Lemma route_segment_well_formed_witness :
  exists segment,
    calculateRouteSegments {| lat := 25.2048; lng := 55.2708 |}
      {| lat := 24.4539; lng := 54.3773 |} (exampleVehicle 75)
      [ {| elevation := 5; distance_from_start := 0 |};
        {| elevation := 27; distance_from_start := 140 |} ] mildWeather
    = [segment]
    /\ 0 <= distance segment
    /\ 0 <= duration segment
    /\ 0 <= elevationGain segment
    /\ 0 <= energyRequired segment
    /\ (exists minutes metres tenths,
           duration segment = IZR minutes
           /\ elevationGain segment = IZR metres
           /\ energyRequired segment * 10 = IZR tenths).
Proof.
  apply route_segment_well_formed; simpl; lra.
Defined.
